(** * django-workflows: the state-binding and transition engine

    A shallow embedding of [workflows/models.py] and [workflows/utils.py].
    Database tables are finite maps, sets or row lists held in a [World];
    every engine function is a computation over that world which either
    returns a value or raises, and the world it leaves behind is kept in
    both cases (nothing is rolled back).  Model instances are identified
    with their primary keys, which is also how Django compares them. *)

From stdpp Require Import gmap strings list fin_maps.

(** ** Primary keys *)

Abbreviation Workflow := nat (only parsing).
Abbreviation State := nat (only parsing).
Abbreviation Permission := nat (only parsing).
Abbreviation Role := nat (only parsing).
Abbreviation User := nat (only parsing).
Abbreviation ContentType := nat (only parsing).

(** An arbitrary model instance, seen through the generic foreign key:
    its content type and its id. *)
Record Entity := { content_type : ContentType; content_id : nat }.

#[global] Instance Entity_eq_dec : EqDecision Entity.
Proof. solve_decision. Defined.

#[global] Program Instance Entity_countable : Countable Entity :=
  inj_countable' (λ e, (content_type e, content_id e))
                 (λ p, {| content_type := p.1; content_id := p.2 |}) _.
Next Obligation. by intros []. Qed.

(** ** models.py *)

(** [Transition]: [destination] and [permission] are nullable foreign keys,
    [condition] is a text field that may be blank. *)
Record Transition := {
  t_id : nat;
  t_codename : string;
  t_destination : option State;
  t_condition : string;
  t_permission : option Permission;
}.

(** [StateObjectRelation]: one row.  The table's [unique_together] is
    (content_type, content_id, state), so the schema itself allows several
    rows for one object.  The row's [update_date] (auto_now) is refreshed by
    every [save] and is not carried here: two row lists that are equal in
    this model agree on which object is in which state, not on when a row
    was last saved. *)
Record StateObjectRelation := { sor_content : Entity; sor_state : State }.

(** [StateObjectHistory]: one row, without its [update_date]
    (auto_now_add). *)
Record StateObjectHistory := { soh_content : Entity; soh_state : State }.

(** A row of the permission subsystem's object-permission table:
    (object, role, permission). *)
Abbreviation Grant := (Entity * Role * Permission)%type (only parsing).

(** ** signals.py *)

Inductive Signal :=
| before_state_change (sender : Entity) (from_state to_state : option State)
| after_state_change (sender : Entity) (from_state to_state : option State)
| before_transition (sender : Entity) (from_state : option State)
                    (transition : Transition) (user : User)
| after_transition (sender : Entity) (from_state : option State)
                   (transition : Transition) (user : User).

(** ** Exceptions *)

Inductive Exn :=
| AttributeError
| DoesNotExist
| MultipleObjectsReturned
| NullState          (* None stored in the non-null [state] column *)
| WrongModelInstance (* a lookup value of the wrong model class *)
| HostError (tag : nat).

#[global] Instance Exn_eq_dec : EqDecision Exn.
Proof. solve_decision. Defined.

(** ** The stores

    WorkflowObjectRelation is unique on (content_type, content_id) and
    WorkflowModelRelation on content_type, so both are finite maps.
    StateObjectRelation is kept as its rows: uniqueness per object is not a
    constraint of the table but a property of the code that writes it.  The
    grants are the rows of the permission subsystem's table. *)

Record World := {
  wors : gmap Entity Workflow;       (* WorkflowObjectRelation *)
  wmrs : gmap ContentType Workflow;  (* WorkflowModelRelation *)
  sors : list StateObjectRelation;
  history : list StateObjectHistory;
  grants : gset Grant;
  sent : list Signal;                (* signals sent so far, oldest first *)
}.

Definition with_wors (f : gmap Entity Workflow → gmap Entity Workflow) (w : World) : World :=
  {| wors := f (wors w); wmrs := wmrs w; sors := sors w;
     history := history w; grants := grants w; sent := sent w |}.

Definition with_wmrs (f : gmap ContentType Workflow → gmap ContentType Workflow) (w : World) : World :=
  {| wors := wors w; wmrs := f (wmrs w); sors := sors w;
     history := history w; grants := grants w; sent := sent w |}.

Definition with_sors (f : list StateObjectRelation → list StateObjectRelation) (w : World) : World :=
  {| wors := wors w; wmrs := wmrs w; sors := f (sors w);
     history := history w; grants := grants w; sent := sent w |}.

Definition with_history (f : list StateObjectHistory → list StateObjectHistory) (w : World) : World :=
  {| wors := wors w; wmrs := wmrs w; sors := sors w;
     history := f (history w); grants := grants w; sent := sent w |}.

Definition with_grants (f : gset Grant → gset Grant) (w : World) : World :=
  {| wors := wors w; wmrs := wmrs w; sors := sors w;
     history := history w; grants := f (grants w); sent := sent w |}.

Definition with_sent (f : list Signal → list Signal) (w : World) : World :=
  {| wors := wors w; wmrs := wmrs w; sors := sors w;
     history := history w; grants := grants w; sent := f (sent w) |}.

(** ** Computations that may raise *)

Inductive Outcome (A : Type) :=
| Ok (a : A) (w : World)
| Raised (e : Exn) (w : World).
Arguments Ok {A} a w.
Arguments Raised {A} e w.

Definition M (A : Type) : Type := World → Outcome A.

Definition ret {A} (a : A) : M A := λ w, Ok a w.
Definition raise {A} (e : Exn) : M A := λ w, Raised e w.
Definition bind {A B} (c : M A) (k : A → M B) : M B :=
  λ w, match c w with
       | Ok a w' => k a w'
       | Raised e w' => Raised e w'
       end.
Definition reading {A} (f : World → A) : M A := λ w, Ok (f w) w.
Definition update (f : World → World) : M unit := λ w, Ok tt (f w).

Notation "x <~ c ;; k" := (bind c (λ x, k))
  (at level 100, c at next level, right associativity).
Notation "c ;;; k" := (bind c (λ _, k))
  (at level 100, right associativity).

(** The world an outcome leaves behind, whether it returned or raised. *)
Definition world_of {A} (o : Outcome A) : World :=
  match o with Ok _ w => w | Raised _ w => w end.

(** [Signal.send]: handlers belong to the host; the engine's part is the
    order and payload of what is sent. *)
Definition send (s : Signal) : M unit := update (with_sent (λ l, l ++ [s])).

(** [Manager.get]: the single matching row, [DoesNotExist] for none,
    [MultipleObjectsReturned] for more than one. *)
Inductive GetResult (A : Type) :=
| Found (a : A)
| NotFound
| Several.
Arguments Found {A} a.
Arguments NotFound {A}.
Arguments Several {A}.

Definition objects_get {A} (rows : list A) : GetResult A :=
  match rows with
  | [] => NotFound
  | [r] => Found r
  | _ :: _ :: _ => Several
  end.

(** ** Collaborators outside the package *)

(** What [eval(transition.condition, {...})] followed by [bool(...)] does:
    a truth value, or an error, that is an exception of class [Exception],
    the class that [_condition_met] catches. *)
Inductive EvalOutcome :=
| Value (truth : bool)
| EvalRaises (e : Exn).

(** What a call of the object's own [has_permission] method does. *)
Inductive CallOutcome :=
| Returns (truth : bool)
| CallRaises (e : Exn).

(** How the ORM treats a model instance of the wrong class given as the
    value of a foreign-key lookup: Django up to 1.7 compares the stored key
    with the instance's primary key, Django from 1.8 on refuses the query
    with a ValueError. *)
Inductive InstanceLookup :=
| PkCoercion
| TypeChecked.

Record Host := {
  (* settings.WORKFLOWS_ENABLE_STATE_HISTORY *)
  WORKFLOWS_ENABLE_STATE_HISTORY : bool;
  (* eval of a condition with obj, user and transition bound *)
  eval : string → Entity → User → Transition → EvalOutcome;
  (* obj.has_permission, None when the object has no such attribute *)
  obj_has_permission : Entity → option (User → Permission → CallOutcome);
  (* permissions.utils.has_permission, reading the permission tables *)
  permissions_has_permission : gset Grant → Entity → User → Permission → bool;
  (* ctype.model_class().objects.all() *)
  model_objects : ContentType → list Entity;
  instance_lookup : InstanceLookup;
}.

(** The workflow graph: what the queries on the definition tables return. *)
Record Config := {
  (* Workflow.initial_state *)
  initial_state : Workflow → option State;
  (* workflow.states.all(), in the model's ordering *)
  states_all : Workflow → list State;
  (* Workflow.objects.get(name=...) *)
  workflow_by_name : string → option Workflow;
  (* State.objects.get(codename=...) *)
  state_by_codename : string → option State;
  (* state.transitions.all() *)
  transitions_all : State → list Transition;
  (* Transition.objects.get(codename=...) *)
  transition_by_codename : string → option Transition;
  (* WorkflowPermissionRelation rows of a workflow *)
  workflow_permissions : Workflow → list Permission;
  (* StatePermissionRelation rows of a state *)
  state_permissions : State → list (Role * Permission);
  (* Role.objects.all() *)
  roles_all : list Role;
}.

(** Modelled from the spec: the permission subsystem's
    [remove_permission(entity, roles, permissions)], a bulk revoke of every
    listed permission from every listed role on the entity.  The package
    [permissions] is not part of the sources. *)
Definition remove_permission (obj : Entity) (roles : list Role)
    (perms : list Permission) (g : gset Grant) : gset Grant :=
  g ∖ list_to_set (r ← roles; p ← perms; [(obj, r, p)]).

(** Modelled from the spec: the permission subsystem's
    [grant_permission(entity, role, permission)]; the grants on an entity
    form a set. *)
Definition grant_permission (obj : Entity) (role : Role)
    (permission : Permission) (g : gset Grant) : gset Grant :=
  g ∪ {[ (obj, role, permission) ]}.

(** Modelled from the spec: the permission subsystem's [reset(entity)],
    which revokes everything on the entity. *)
Definition reset (obj : Entity) (g : gset Grant) : gset Grant :=
  filter (λ x : Grant, x.1.1 ≠ obj) g.

(** Arguments that the Python code accepts in more than one form. *)

(** [set_state]'s [state]: a State instance, a codename, or None (which is
    what [Workflow.initial_state] holds when no initial state is set). *)
Inductive StateArg :=
| StateInstance (s : State)
| StateCodename (codename : string)
| StateNone.

(** [do_transition]'s [transition]: a Transition instance or a codename. *)
Inductive TransitionArg :=
| TransitionInstance (t : Transition)
| TransitionCodename (codename : string).

(** [get_objects_for_workflow]'s [workflow]. *)
Inductive WorkflowArg :=
| WorkflowInstance (wf : Workflow)
| WorkflowName (name : string)
| WorkflowNone.

(** [set_workflow]'s and [remove_workflow]'s [ctype_or_obj]. *)
Inductive Target :=
| OfType (ctype : ContentType)
| OfObject (obj : Entity).

Definition state_arg (s : option State) : StateArg :=
  match s with Some s => StateInstance s | None => StateNone end.

(** A [for] loop whose body may raise and which carries the local it
    mutates. *)
Fixpoint for_each {A B} (l : list A) (body : B → A → M B) (acc : B) : M B :=
  match l with
  | [] => ret acc
  | x :: rest => acc' <~ body acc x ;; for_each rest body acc'
  end.

(** Rows of an object in the StateObjectRelation table:
    [filter(content_type=ctype, content_id=obj.id)]. *)
Definition sor_filter (obj : Entity) (rows : list StateObjectRelation) :
    list StateObjectRelation :=
  filter (λ r, sor_content r = obj) rows.

(** [sor.state = state; sor.save()] on the row that [get] returned; [get]
    returns only when it is the one row of the object. *)
Definition sor_save (obj : Entity) (state : State)
    (rows : list StateObjectRelation) : list StateObjectRelation :=
  (λ r, if decide (sor_content r = obj)
        then {| sor_content := obj; sor_state := state |} else r) <$> rows.

(** [sor.delete()] on the row that [get] returned. *)
Definition sor_delete (obj : Entity)
    (rows : list StateObjectRelation) : list StateObjectRelation :=
  filter (λ r, sor_content r ≠ obj) rows.

(** Python's [transition in transitions]: model instances are equal when
    their primary keys are. *)
Definition transition_in (t : Transition) (l : list Transition) : bool :=
  existsb (λ x, Nat.eqb (t_id x) (t_id t)) l.

Section Engine.

Variable cfg : Config.
Variable host : Host.

(** *** models.py: Workflow *)

Definition Workflow_get_initial_state (self : Workflow) : option State :=
  match initial_state cfg self with
  | Some s => Some s
  | None => head (states_all cfg self)
  end.

(** *** utils.py: reading the bindings *)

Definition get_workflow_for_object (obj : Entity) : M (option Workflow) :=
  reading (λ w, wors w !! obj).

Definition get_workflow_for_model (ctype : ContentType) : M (option Workflow) :=
  reading (λ w, wmrs w !! ctype).

Definition get_workflow (obj : Entity) : M (option Workflow) :=
  workflow <~ get_workflow_for_object obj ;;
  match workflow with
  | Some wf => ret (Some wf)
  | None => get_workflow_for_model (content_type obj)
  end.

Definition get_state (obj : Entity) : M (option State) :=
  rows <~ reading (λ w, sor_filter obj (sors w)) ;;
  match objects_get rows with
  | Found sor => ret (Some (sor_state sor))
  | NotFound => ret None
  | Several => raise MultipleObjectsReturned
  end.

(** *** utils.py: update_permissions *)

(** [WorkflowPermissionRelation.objects.filter(workflow=workflow)]: a None
    value selects the rows whose column is NULL, and the column is not
    nullable. *)
Definition wpr_filter (workflow : option Workflow) : list Permission :=
  match workflow with
  | Some wf => workflow_permissions cfg wf
  | None => []
  end.

(** [StatePermissionRelation.objects.filter(state=state)], likewise. *)
Definition spr_filter (state : option State) : list (Role * Permission) :=
  match state with
  | Some s => state_permissions cfg s
  | None => []
  end.

Definition update_permissions (obj : Entity) : M unit :=
  workflow <~ get_workflow obj ;;
  state <~ get_state obj ;;
  let perms := wpr_filter workflow in
  update (with_grants (remove_permission obj (roles_all cfg) perms)) ;;;
  for_each (spr_filter state)
    (λ _ spr, update (with_grants (grant_permission obj spr.1 spr.2))) tt.

(** *** utils.py: set_state, set_initial_state *)

(** The [state] column is a non-null foreign key: assigning or saving None
    raises before anything is written. *)
Definition not_null (state : option State) : M State :=
  match state with
  | Some s => ret s
  | None => raise NullState
  end.

Definition record_history (obj : Entity) (state : State) : M unit :=
  if WORKFLOWS_ENABLE_STATE_HISTORY host
  then update (with_history (λ h, h ++ [{| soh_content := obj; soh_state := state |}]))
  else ret tt.

Definition set_state (obj : Entity) (state : StateArg) : M unit :=
  state <~ match state with
           | StateCodename c =>
               match state_by_codename cfg c with
               | Some s => ret (Some s)
               | None => raise DoesNotExist
               end
           | StateInstance s => ret (Some s)
           | StateNone => ret None
           end ;;
  rows <~ reading (λ w, sor_filter obj (sors w)) ;;
  match objects_get rows with
  | Found sor =>
      let from_state := Some (sor_state sor) in
      send (before_state_change obj from_state state) ;;;
      s <~ not_null state ;;
      update (with_sors (sor_save obj s)) ;;;
      record_history obj s ;;;
      send (after_state_change obj from_state state)
  | NotFound =>
      send (before_state_change obj None state) ;;;
      s <~ not_null state ;;
      update (with_sors (λ rows, rows ++ [{| sor_content := obj; sor_state := s |}])) ;;;
      record_history obj s ;;;
      send (after_state_change obj None state)
  | Several => raise MultipleObjectsReturned
  end ;;;
  update_permissions obj.

Definition set_initial_state (obj : Entity) : M unit :=
  wf <~ get_workflow obj ;;
  match wf with
  | Some wf => set_state obj (state_arg (Workflow_get_initial_state wf))
  | None => ret tt
  end.

(** *** models.py: Workflow.set_to_model, set_to_object, set_to *)

Definition Workflow_set_to_model (self : Workflow) (ctype : ContentType) : M unit :=
  update (with_wmrs (<[ctype := self]>)).

Definition Workflow_set_to_object (self : Workflow) (obj : Entity) : M unit :=
  wor <~ reading (λ w, wors w !! obj) ;;
  match wor with
  | None =>
      update (with_wors (<[obj := self]>)) ;;;
      set_state obj (state_arg (initial_state cfg self))
  | Some wf =>
      if decide (wf ≠ self) then
        update (with_wors (<[obj := self]>)) ;;;
        set_state obj (state_arg (initial_state cfg self))
      else ret tt
  end.

Definition Workflow_set_to (self : Workflow) (ctype_or_obj : Target) : M unit :=
  match ctype_or_obj with
  | OfType ctype => Workflow_set_to_model self ctype
  | OfObject obj => Workflow_set_to_object self obj
  end.

Definition set_workflow (ctype_or_obj : Target) (workflow : Workflow) : M unit :=
  Workflow_set_to workflow ctype_or_obj.

(** *** models.py: State.get_allowed_transitions *)

Definition _condition_met (obj : Entity) (user : User) (transition : Transition) : bool :=
  if decide (t_condition transition = "") then true
  else match eval host (t_condition transition) obj user transition with
       | Value truth => truth
       | EvalRaises _ => false
       end.

(** The call [obj.has_permission(user, codename)]: a missing attribute is
    an AttributeError like any the method itself may raise. *)
Definition call_obj_has_permission (obj : Entity) (user : User)
    (permission : Permission) : CallOutcome :=
  match obj_has_permission host obj with
  | Some method => method user permission
  | None => CallRaises AttributeError
  end.

(** One turn of the loop: whether the transition is appended. *)
Definition transition_allowed (g : gset Grant) (obj : Entity) (user : User)
    (transition : Transition) : Exn + bool :=
  match t_permission transition with
  | None => inr (_condition_met obj user transition)
  | Some permission =>
      match call_obj_has_permission obj user permission with
      | Returns truth => inr (truth && _condition_met obj user transition)
      | CallRaises AttributeError =>
          inr (permissions_has_permission host g obj user permission
               && _condition_met obj user transition)
      | CallRaises e => inl e
      end
  end.

Fixpoint allowed_loop (g : gset Grant) (obj : Entity) (user : User)
    (todo transitions : list Transition) : Exn + list Transition :=
  match todo with
  | [] => inr transitions
  | transition :: rest =>
      match transition_allowed g obj user transition with
      | inl e => inl e
      | inr true => allowed_loop g obj user rest (transitions ++ [transition])
      | inr false => allowed_loop g obj user rest transitions
      end
  end.

Definition State_get_allowed_transitions (self : State) (obj : Entity)
    (user : User) : M (list Transition) :=
  g <~ reading grants ;;
  match allowed_loop g obj user (transitions_all cfg self) [] with
  | inr transitions => ret transitions
  | inl e => raise e
  end.

(** *** utils.py: get_allowed_transitions, do_transition *)

Definition get_allowed_transitions (obj : Entity) (user : User) : M (list Transition) :=
  state <~ get_state obj ;;
  match state with
  | None => ret []
  | Some s => State_get_allowed_transitions s obj user
  end.

(** The first lines of [do_transition]: an instance is taken as it is, any
    other value is looked up as a codename; None stands for
    [Transition.DoesNotExist]. *)
Definition resolve_transition (transition : TransitionArg) : option Transition :=
  match transition with
  | TransitionInstance t => Some t
  | TransitionCodename c => transition_by_codename cfg c
  end.

Definition do_transition (obj : Entity) (transition : TransitionArg)
    (user : User) : M bool :=
  match resolve_transition transition with
  | None => ret false
  | Some transition =>
      transitions <~ get_allowed_transitions obj user ;;
      if transition_in transition transitions then
        from_state <~ get_state obj ;;
        send (before_transition obj from_state transition user) ;;;
        match t_destination transition with
        | Some destination =>
            if decide (Some destination ≠ from_state)
            then set_state obj (StateInstance destination)
            else ret tt
        | None => ret tt
        end ;;;
        send (after_transition obj from_state transition user) ;;;
        ret true
      else ret false
  end.

(** *** models.py: Workflow.get_objects; utils.py: removing a workflow *)

Definition Workflow_get_objects (self : Workflow) : M (list Entity) :=
  by_model <~ reading (λ w, (map_to_list (filter (λ kv, kv.2 = self) (wmrs w))).*1) ;;
  objs <~ for_each by_model
    (λ objs ctype,
       for_each (model_objects host ctype)
         (λ objs obj,
            wf <~ get_workflow obj ;;
            ret (if decide (wf = Some self) then objs ++ [obj] else objs))
         objs)
    [] ;;
  by_object <~ reading (λ w, (map_to_list (filter (λ kv, kv.2 = self) (wors w))).*1) ;;
  for_each by_object
    (λ objs content, ret (if decide (content ∈ objs) then objs else objs ++ [content]))
    objs.

Definition get_objects_for_workflow (workflow : WorkflowArg) : M (list Entity) :=
  match workflow with
  | WorkflowInstance wf => Workflow_get_objects wf
  | WorkflowName name =>
      match workflow_by_name cfg name with
      | Some wf => Workflow_get_objects wf
      | None => ret []
      end
  | WorkflowNone => ret []
  end.

Definition remove_workflow_from_model (ctype : ContentType) : M unit :=
  workflow <~ get_workflow_for_model ctype ;;
  objs <~ get_objects_for_workflow
            (match workflow with
             | Some wf => WorkflowInstance wf
             | None => WorkflowNone
             end) ;;
  for_each objs
    (λ _ obj,
       if decide (ctype ≠ content_type obj) then ret tt
       else
         rows <~ reading (λ w, sor_filter obj (sors w)) ;;
         match objects_get rows with
         | Found _ => update (with_sors (sor_delete obj))
         | NotFound => ret tt
         | Several => raise MultipleObjectsReturned
         end ;;;
         update (with_grants (reset obj)))
    tt ;;;
  update (with_wmrs (delete ctype)).

(** [WorkflowObjectRelation.objects.get(content_type=obj)]: the lookup names
    only the content type column and is handed the object itself. *)
Definition wor_get_by_instance (obj : Entity) : M (GetResult Entity) :=
  match instance_lookup host with
  | TypeChecked => raise WrongModelInstance
  | PkCoercion =>
      reading (λ w, objects_get
        (map_to_list (filter (λ kv, content_type kv.1 = content_id obj) (wors w))).*1)
  end.

Definition remove_workflow_from_object (obj : Entity) : M unit :=
  wor <~ wor_get_by_instance obj ;;
  match wor with
  | Found content => update (with_wors (delete content))
  | NotFound => ret tt
  | Several => raise MultipleObjectsReturned
  end ;;;
  update (with_grants (reset obj)) ;;;
  set_initial_state obj.

Definition remove_workflow (ctype_or_obj : Target) : M unit :=
  match ctype_or_obj with
  | OfType ctype => remove_workflow_from_model ctype
  | OfObject obj => remove_workflow_from_object obj
  end.

End Engine.

(** ** Vocabulary of the statements *)

(** At most one StateObjectRelation row per object: the objects of the rows
    are pairwise distinct. *)
Definition one_state_binding (w : World) : Prop :=
  NoDup (sor_content <$> sors w).

(** A computation preserves a property of worlds when the world it leaves,
    returning or raising, has the property whenever the world it starts
    from has it. *)
Definition preserves (P : World → Prop) {A} (c : M A) : Prop :=
  ∀ w, P w → P (world_of (c w)).

(** The workflow an object resolves: its own, else its content type's. *)
Definition workflow_of (w : World) (obj : Entity) : option Workflow :=
  match wors w !! obj with
  | Some wf => Some wf
  | None => wmrs w !! content_type obj
  end.

#[global] Instance one_state_binding_dec (w : World) : Decision (one_state_binding w).
Proof. unfold one_state_binding. apply _. Defined.

(** The triples that the grant loop of [update_permissions] adds. *)
Definition granted (obj : Entity) (sprs : list (Role * Permission)) : gset Grant :=
  list_to_set ((λ spr, (obj, spr.1, spr.2)) <$> sprs).

(** The grant table that [update_permissions] leaves, from the workflow and
    the state it read. *)
Definition recomputed (cfg : Config) (obj : Entity) (workflow : option Workflow)
    (state : option State) (g : gset Grant) : gset Grant :=
  remove_permission obj (roles_all cfg) (wpr_filter cfg workflow) g
  ∪ granted obj (spr_filter cfg state).

(** The world that [set_state] leaves when it moves [obj] from [from] to the
    state [s] and returns. *)
Definition state_changed (cfg : Config) (host : Host) (obj : Entity)
    (from : option State) (s : State) (w : World) : World :=
  {| wors := wors w;
     wmrs := wmrs w;
     sors := match from with
             | Some _ => sor_save obj s (sors w)
             | None => sors w ++ [{| sor_content := obj; sor_state := s |}]
             end;
     history := if WORKFLOWS_ENABLE_STATE_HISTORY host
                then history w ++ [{| soh_content := obj; soh_state := s |}]
                else history w;
     grants := recomputed cfg obj (workflow_of w obj) (Some s) (grants w);
     sent := sent w ++ [before_state_change obj from (Some s);
                        after_state_change obj from (Some s)] |}.

(** The verdict that decides a transition with a required permission: the
    object's own when its call returns one, the default check's when the
    call raises AttributeError, none when the call raises anything else. *)
Definition deciding_check (host : Host) (g : gset Grant) (obj : Entity)
    (user : User) (permission : Permission) : option bool :=
  match call_obj_has_permission host obj user permission with
  | Returns truth => Some truth
  | CallRaises AttributeError =>
      Some (permissions_has_permission host g obj user permission)
  | CallRaises _ => None
  end.

(** The same host with an evaluator that answers false wherever the
    original raises. *)
Definition fail_closed (host : Host) : Host :=
  {| WORKFLOWS_ENABLE_STATE_HISTORY := WORKFLOWS_ENABLE_STATE_HISTORY host;
     eval := λ c obj user t,
       match eval host c obj user t with
       | Value truth => Value truth
       | EvalRaises _ => Value false
       end;
     obj_has_permission := obj_has_permission host;
     permissions_has_permission := permissions_has_permission host;
     model_objects := model_objects host;
     instance_lookup := instance_lookup host |}.

(** ** A small installation

    Workflow [review] with states [draft] (initial) and [published];
    workflow [tickets] with the single state [opened] and no initial state
    set.  [publish] leads to [published] and requires [can_publish];
    [comment] has no destination and a guard. *)
Module Demo.

Definition review : Workflow := 1.
Definition tickets : Workflow := 2.
Definition draft : State := 1.
Definition published : State := 2.
Definition opened : State := 3.
Definition can_publish : Permission := 1.
Definition can_edit : Permission := 2.
Definition can_comment : Permission := 3.
Definition editor : Role := 1.
Definition reader : Role := 2.
Definition alice : User := 1.

Definition publish : Transition :=
  {| t_id := 1; t_codename := "publish"; t_destination := Some published;
     t_condition := ""; t_permission := Some can_publish |}.

Definition comment : Transition :=
  {| t_id := 2; t_codename := "comment"; t_destination := None;
     t_condition := "user.is_active"; t_permission := None |}.

Definition cfg : Config :=
  {| initial_state := λ wf, if decide (wf = review) then Some draft else None;
     states_all := λ wf,
       if decide (wf = review) then [draft; published]
       else if decide (wf = tickets) then [opened] else [];
     workflow_by_name := λ name,
       if decide (name = "review") then Some review
       else if decide (name = "tickets") then Some tickets else None;
     state_by_codename := λ c,
       if decide (c = "draft") then Some draft
       else if decide (c = "published") then Some published
       else if decide (c = "opened") then Some opened else None;
     transitions_all := λ s, if decide (s = draft) then [publish; comment] else [comment];
     transition_by_codename := λ c,
       if decide (c = "publish") then Some publish
       else if decide (c = "comment") then Some comment else None;
     workflow_permissions := λ wf, if decide (wf = review) then [can_publish; can_edit] else [];
     state_permissions := λ s,
       if decide (s = published) then [(editor, can_edit); (reader, can_comment)]
       else if decide (s = draft) then [(editor, can_publish)] else [];
     roles_all := [editor; reader] |}.

(** A host: which ORM behaviour, what the object's own check does (if it
    has one), what the default check answers, what the guard evaluates to. *)
Definition host (lookup : InstanceLookup) (own : option CallOutcome)
    (default : bool) (guard : EvalOutcome) : Host :=
  {| WORKFLOWS_ENABLE_STATE_HISTORY := true;
     eval := λ _ _ _ _, guard;
     obj_has_permission := λ _,
       match own with Some r => Some (λ _ _, r) | None => None end;
     permissions_has_permission := λ _ _ _ _, default;
     model_objects := λ _, [];
     instance_lookup := lookup |}.

Definition plain : Host := host PkCoercion None true (Value true).

(** [doc]'s id happens to equal its content type's id; [memo]'s does not. *)
Definition doc : Entity := {| content_type := 1; content_id := 1 |}.
Definition memo : Entity := {| content_type := 5; content_id := 1 |}.

Definition empty_world : World :=
  {| wors := ∅; wmrs := ∅; sors := []; history := []; grants := ∅; sent := [] |}.

(** [obj] bound to [wf] by an object-level relation and sitting in [s]. *)
Definition bound (obj : Entity) (wf : Workflow) (s : State) : World :=
  {| wors := {[ obj := wf ]}; wmrs := ∅;
     sors := [{| sor_content := obj; sor_state := s |}];
     history := []; grants := ∅; sent := [] |}.

(** [obj] in state [s] with no workflow at all. *)
Definition stateful (obj : Entity) (s : State) : World :=
  {| wors := ∅; wmrs := ∅;
     sors := [{| sor_content := obj; sor_state := s |}];
     history := []; grants := ∅; sent := [] |}.

End Demo.

(** ** utils.py: the entry points that take a workflow by name *)

Section ByName.

Variable cfg : Config.
Variable host : Host.

(** What these two functions return: [False] when the named workflow does
    not exist, nothing ([None]) otherwise. *)
Inductive Returned :=
| ReturnedFalse
| ReturnedNone.

(** [Workflow.objects.get(name=workflow)] for an argument that is not a
    Workflow instance; a None name matches no row. *)
Definition workflow_of_arg (workflow : WorkflowArg) : option Workflow :=
  match workflow with
  | WorkflowInstance wf => Some wf
  | WorkflowName name => workflow_by_name cfg name
  | WorkflowNone => None
  end.

Definition set_workflow_for_object (obj : Entity) (workflow : WorkflowArg) : M Returned :=
  match workflow_of_arg workflow with
  | None => ret ReturnedFalse
  | Some wf => Workflow_set_to_object cfg host wf obj ;;; ret ReturnedNone
  end.

Definition set_workflow_for_model (ctype : ContentType) (workflow : WorkflowArg) : M Returned :=
  match workflow_of_arg workflow with
  | None => ret ReturnedFalse
  | Some wf => Workflow_set_to_model wf ctype ;;; ret ReturnedNone
  end.

End ByName.

(** The same host with the state history switched off. *)
Definition without_history (host : Host) : Host :=
  {| WORKFLOWS_ENABLE_STATE_HISTORY := false;
     eval := eval host;
     obj_has_permission := obj_has_permission host;
     permissions_has_permission := permissions_has_permission host;
     model_objects := model_objects host;
     instance_lookup := instance_lookup host |}.

(** The same host with the given objects per content type. *)
Definition with_objects (objects : ContentType → list Entity) (host : Host) : Host :=
  {| WORKFLOWS_ENABLE_STATE_HISTORY := WORKFLOWS_ENABLE_STATE_HISTORY host;
     eval := eval host;
     obj_has_permission := obj_has_permission host;
     permissions_has_permission := permissions_has_permission host;
     model_objects := objects;
     instance_lookup := instance_lookup host |}.

(** ** management/commands/graph.py

    The command builds a graph in memory and only then writes files, so a
    rendering is the nodes and edges put into the graph together with the
    paths written, in order. *)

(** The columns the command reads besides those of [Config]. *)
Record Names := {
  (* Workflow.objects.get(codename=...) *)
  workflow_by_codename : string → option Workflow;
  state_codename : State → string;
  state_name : State → string;
  transition_name : Transition → string;
}.

(** The options the command reads. *)
Record Options := {
  opt_layout : string;
  opt_format : string;
  opt_create_dot : bool;
}.

(** [graph.add_node(state.codename, label=state.name, **kwargs)]; [root]
    tells whether the keyword arguments of the initial state were given. *)
Record Node := { node_name : string; node_label : string; node_root : bool }.

(** [graph.add_edge(source, destination, label=...)]. *)
Record Edge := { edge_source : string; edge_destination : string; edge_label : string }.

(** [graph.write(path)] and [graph.draw(path, prog=layout)]. *)
Inductive FileWritten :=
| DotFile (path : string)
| Drawing (path prog : string).

Record Rendering := {
  nodes : list Node;
  edges : list Edge;
  files : list FileWritten;
}.

(** What the command may raise: its own CommandError or whatever a
    rendering raises. *)
Inductive CommandExn :=
| CommandError
| Propagated (e : Exn).

Section Graph.

Variable cfg : Config.
Variable names : Names.

(** The first loop: the states, and every (state, transition) pair. *)
Definition collect_edges (states : list State) : list (State * Transition) :=
  state ← states; (λ transition, (state, transition)) <$> transitions_all cfg state.

(** The loop over the edges; [transition.destination.codename] is an
    AttributeError when the destination is None. *)
Fixpoint add_edges (pairs : list (State * Transition)) (added : list Edge) : Exn + list Edge :=
  match pairs with
  | [] => inr added
  | (state, transition) :: rest =>
      match t_destination transition with
      | None => inl AttributeError
      | Some destination =>
          add_edges rest
            (added ++ [{| edge_source := state_codename names state;
                          edge_destination := state_codename names destination;
                          edge_label := transition_name names transition |}])
      end
  end.

Definition render_workfow (name : string) (options : Options) : Exn + Rendering :=
  match workflow_by_codename names name with
  | None => inl DoesNotExist
  | Some workflow =>
      let states := states_all cfg workflow in
      let pairs := collect_edges states in
      let nodes :=
        (λ state, {| node_name := state_codename names state;
                     node_label := state_name names state;
                     node_root := bool_decide (initial_state cfg workflow = Some state) |})
          <$> states in
      match add_edges pairs [] with
      | inl e => inl e
      | inr edges =>
          let loc := String.append "workflow_" name in
          inr {| nodes := nodes;
                 edges := edges;
                 files :=
                   (if opt_create_dot options
                    then [DotFile (String.append loc ".dot")] else [])
                   ++ [Drawing (String.append loc (String.append "." (opt_format options)))
                         (opt_layout options)] |}
      end
  end.

(** The loop of [handle]: the renderings made before the first one that
    raises stay made. *)
Fixpoint render_all (args : list string) (options : Options)
    (done : list Rendering) : list Rendering * option CommandExn :=
  match args with
  | [] => (done, None)
  | workflow_name :: rest =>
      match render_workfow workflow_name options with
      | inl e => (done, Some (Propagated e))
      | inr rendering => render_all rest options (done ++ [rendering])
      end
  end.

Definition handle (args : list string) (options : Options) :
    list Rendering * option CommandExn :=
  if decide (length args < 1) then ([], Some CommandError)
  else render_all args options [].

End Graph.

(** The names of the small installation, for the graph command. *)
Module DemoGraph.

Definition names : Names :=
  {| workflow_by_codename := λ c,
       if decide (c = "review") then Some Demo.review
       else if decide (c = "tickets") then Some Demo.tickets else None;
     state_codename := λ s,
       if decide (s = Demo.draft) then "draft"
       else if decide (s = Demo.published) then "published" else "opened";
     state_name := λ s,
       if decide (s = Demo.draft) then "Draft"
       else if decide (s = Demo.published) then "Published" else "Opened";
     transition_name := λ t, t_codename t |}.

Definition pdf : Options :=
  {| opt_layout := "dot"; opt_format := "pdf"; opt_create_dot := false |}.

(** [review] with [publish] as its only transition, out of [draft]. *)
Definition publish_only : Config :=
  {| initial_state := initial_state Demo.cfg;
     states_all := states_all Demo.cfg;
     workflow_by_name := workflow_by_name Demo.cfg;
     state_by_codename := state_by_codename Demo.cfg;
     transitions_all := λ s, if decide (s = Demo.draft) then [Demo.publish] else [];
     transition_by_codename := transition_by_codename Demo.cfg;
     workflow_permissions := workflow_permissions Demo.cfg;
     state_permissions := state_permissions Demo.cfg;
     roles_all := roles_all Demo.cfg |}.

End DemoGraph.

(** * Properties *)

(** ** The installation at work *)

(** Assigning [review] to a fresh document puts it in [draft], through the
    state-change protocol. *)
Example assign_review :
  let after := world_of (set_workflow Demo.cfg Demo.plain (OfObject Demo.doc)
                           Demo.review Demo.empty_world) in
  get_state Demo.doc after = Ok (Some Demo.draft) after
  ∧ sent after = [before_state_change Demo.doc None (Some Demo.draft);
                  after_state_change Demo.doc None (Some Demo.draft)]
  ∧ history after = [{| soh_content := Demo.doc; soh_state := Demo.draft |}]
  ∧ grants after = {[ (Demo.doc, Demo.editor, Demo.can_publish) ]}.
Proof. vm_compute. repeat split. Qed.

(** A user who passes the permission check publishes the document. *)
Example publish_allowed :
  let w := Demo.bound Demo.doc Demo.review Demo.draft in
  let run := do_transition Demo.cfg Demo.plain Demo.doc
               (TransitionCodename "publish") Demo.alice w in
  get_allowed_transitions Demo.cfg Demo.plain Demo.doc Demo.alice w
  = Ok [Demo.publish; Demo.comment] w
  ∧ run = Ok true (world_of run)
  ∧ get_state Demo.doc (world_of run) = Ok (Some Demo.published) (world_of run)
  ∧ sent (world_of run)
    = [before_transition Demo.doc (Some Demo.draft) Demo.publish Demo.alice;
       before_state_change Demo.doc (Some Demo.draft) (Some Demo.published);
       after_state_change Demo.doc (Some Demo.draft) (Some Demo.published);
       after_transition Demo.doc (Some Demo.draft) Demo.publish Demo.alice]
  ∧ sors (world_of run) = [{| sor_content := Demo.doc; sor_state := Demo.published |}].
Proof. vm_compute. repeat split. Qed.

(** A user who fails the default check is offered only what needs no
    permission, and asking for [publish] is refused. *)
Example publish_denied :
  let w := Demo.bound Demo.doc Demo.review Demo.draft in
  let host := Demo.host PkCoercion None false (Value true) in
  get_allowed_transitions Demo.cfg host Demo.doc Demo.alice w = Ok [Demo.comment] w
  ∧ do_transition Demo.cfg host Demo.doc (TransitionInstance Demo.publish) Demo.alice w
    = Ok false w.
Proof. vm_compute. repeat split. Qed.

(** An error of the object's own check other than AttributeError reaches
    the caller. *)
Example own_check_error_propagates :
  let w := Demo.bound Demo.doc Demo.review Demo.draft in
  let host := Demo.host PkCoercion (Some (CallRaises (HostError 7))) true (Value true) in
  get_allowed_transitions Demo.cfg host Demo.doc Demo.alice w = Raised (HostError 7) w.
Proof. vm_compute. repeat split. Qed.

(** With the lenient ORM, removing [memo]'s workflow looks for a binding
    whose content type has [memo]'s id: it misses [memo]'s own binding and
    deletes [doc]'s. *)
Example lookup_by_instance_hits_other_object :
  let w := with_wors (λ _, {[ Demo.memo := Demo.review; Demo.doc := Demo.review ]})
             (Demo.stateful Demo.memo Demo.draft) in
  let after := world_of (remove_workflow Demo.cfg Demo.plain (OfObject Demo.memo) w) in
  wors after = {[ Demo.memo := Demo.review ]}.
Proof. by vm_compute. Qed.

(** Two rows for one object make every read of its state fail. *)
Example two_rows_raise :
  let w := with_sors (λ rows, rows ++ [{| sor_content := Demo.doc; sor_state := Demo.draft |}])
             (Demo.bound Demo.doc Demo.review Demo.published) in
  get_state Demo.doc w = Raised MultipleObjectsReturned w
  ∧ ¬ one_state_binding w.
Proof. split; [reflexivity|]. apply (bool_decide_eq_false_1 _). by vm_compute. Qed.

(** ** Running the computations *)

Ltac run := unfold bind, reading, update, ret, raise, send in *; simpl in *.

Lemma get_workflow_run obj w : get_workflow obj w = Ok (workflow_of w obj) w.
Proof.
  unfold get_workflow, get_workflow_for_object, get_workflow_for_model, workflow_of.
  run. by destruct (wors w !! obj).
Qed.

Lemma get_state_run obj w :
  get_state obj w
  = match objects_get (sor_filter obj (sors w)) with
    | Found sor => Ok (Some (sor_state sor)) w
    | NotFound => Ok None w
    | Several => Raised MultipleObjectsReturned w
    end.
Proof. unfold get_state. run. by destruct (objects_get _). Qed.

(** What a successful [get_state] says about the rows of the object. *)
Lemma get_state_rows obj w st w' :
  get_state obj w = Ok st w' →
  w' = w ∧ sor_filter obj (sors w)
           = match st with
             | Some s => [{| sor_content := obj; sor_state := s |}]
             | None => []
             end.
Proof.
  rewrite get_state_run.
  destruct (sor_filter obj (sors w)) as [|r [|r' rest]] eqn:E; simpl; intros [= <- <-];
    split; try done.
  assert (r ∈ sor_filter obj (sors w)) as Hr by (rewrite E; apply list_elem_of_here).
  apply list_elem_of_filter in Hr as [Hr _]. destruct r; simpl in *; by subst.
Qed.

Lemma get_state_of_rows obj w st :
  sor_filter obj (sors w)
  = match st with
    | Some s => [{| sor_content := obj; sor_state := s |}]
    | None => []
    end →
  get_state obj w = Ok st w.
Proof. rewrite get_state_run. intros ->. by destruct st. Qed.

(** The grant loop adds the configured triples and touches nothing else. *)
Lemma grant_loop obj sprs w :
  for_each sprs (λ _ spr, update (with_grants (grant_permission obj spr.1 spr.2))) tt w
  = Ok tt (with_grants (λ g, g ∪ granted obj sprs) w).
Proof.
  revert w. induction sprs as [|spr rest IH]; intros w; simpl.
  - unfold ret, with_grants, granted. simpl. destruct w; simpl.
    do 2 f_equal. by rewrite union_empty_r_L.
  - run. rewrite IH. unfold with_grants, granted, grant_permission. simpl.
    do 2 f_equal. by rewrite <- (assoc_L (∪)).
Qed.

Lemma update_permissions_run cfg obj w :
  update_permissions cfg obj w
  = match get_state obj w with
    | Ok st _ =>
        Ok tt (with_grants (recomputed cfg obj (workflow_of w obj) st) w)
    | Raised e _ => Raised e w
    end.
Proof.
  unfold update_permissions. unfold bind at 1. cbv beta. rewrite get_workflow_run.
  unfold bind at 1. cbv beta. rewrite get_state_run.
  destruct (objects_get _); cbv beta iota; try reflexivity;
    unfold bind; cbv beta; unfold update at 1; cbv beta iota;
    by rewrite grant_loop.
Qed.

(** [update_permissions] writes the grant table only. *)
Lemma update_permissions_frame cfg obj w :
  let w' := world_of (update_permissions cfg obj w) in
  wors w' = wors w ∧ wmrs w' = wmrs w ∧ sors w' = sors w
  ∧ history w' = history w ∧ sent w' = sent w.
Proof. rewrite update_permissions_run. by destruct (get_state obj w). Qed.

Lemma elem_of_remove_permission (obj : Entity) (roles perms : list nat)
    (g : gset (Entity * nat * nat)) (e : Entity) (r p : nat) :
  (e, r, p) ∈ remove_permission obj roles perms g
  ↔ (e, r, p) ∈ g ∧ ¬ (e = obj ∧ r ∈ roles ∧ p ∈ perms).
Proof.
  unfold remove_permission. rewrite elem_of_difference, elem_of_list_to_set.
  rewrite list_elem_of_bind. split.
  - intros [Hg Hn]. split; [done|]. intros (-> & Hr & Hp). apply Hn.
    exists r. split; [|done]. apply list_elem_of_bind. exists p. set_solver.
  - intros [Hg Hn]. split; [done|]. intros (r' & Hin & Hr').
    apply list_elem_of_bind in Hin as (p' & Hin & Hp'). apply Hn.
    apply list_elem_of_singleton in Hin. by simplify_eq.
Qed.

Lemma elem_of_granted (obj : Entity) (sprs : list (nat * nat)) (e : Entity) (r p : nat) :
  (e, r, p) ∈ granted obj sprs ↔ e = obj ∧ (r, p) ∈ sprs.
Proof.
  unfold granted. rewrite elem_of_list_to_set, list_elem_of_fmap. split.
  - intros ([r' p'] & [= -> -> ->] & Hin). done.
  - intros [-> Hin]. by exists (r, p).
Qed.

Lemma elem_of_recomputed (cfg : Config) (obj : Entity) (workflow state : option nat)
    (g : gset (Entity * nat * nat)) (e : Entity) (r p : nat) :
  (e, r, p) ∈ recomputed cfg obj workflow state g
  ↔ ((e, r, p) ∈ g
      ∧ ¬ (e = obj ∧ r ∈ roles_all cfg ∧ p ∈ wpr_filter cfg workflow))
    ∨ (e = obj ∧ (r, p) ∈ spr_filter cfg state).
Proof.
  unfold recomputed.
  by rewrite elem_of_union, elem_of_remove_permission, elem_of_granted.
Qed.

Lemma recomputed_idem (cfg : Config) (obj : Entity) (workflow state : option nat)
    (g : gset (Entity * nat * nat)) :
  recomputed cfg obj workflow state (recomputed cfg obj workflow state g)
  = recomputed cfg obj workflow state g.
Proof.
  apply set_eq. intros [[e r] p]. rewrite !elem_of_recomputed. tauto.
Qed.

(** ** The state-change protocol *)

Lemma sor_filter_save (obj : Entity) (s : nat) (e : Entity) rows :
  sor_filter e (sor_save obj s rows)
  = if decide (e = obj)
    then (λ _, {| sor_content := obj; sor_state := s |}) <$> sor_filter obj rows
    else sor_filter e rows.
Proof.
  unfold sor_filter, sor_save. induction rows as [|r rows IH]; csimpl.
  - by destruct (decide (e = obj)).
  - rewrite !filter_cons, IH.
    destruct (decide (sor_content r = obj)) as [Hr|Hr]; csimpl;
      destruct (decide (e = obj)) as [->|He]; csimpl;
      repeat case_decide; simplify_eq; done.
Qed.

Lemma sor_save_objects (obj : Entity) (s : nat) rows :
  sor_content <$> sor_save obj s rows = sor_content <$> rows.
Proof.
  unfold sor_save. rewrite <- list_fmap_compose. apply list_fmap_ext.
  intros i r _. simpl. by case_decide.
Qed.

Lemma sor_filter_nil_objects (obj : Entity) rows :
  sor_filter obj rows = [] ↔ obj ∉ sor_content <$> rows.
Proof.
  unfold sor_filter. split.
  - intros E (r & -> & Hr)%list_elem_of_fmap.
    by eapply (filter_nil_not_elem_of _ _ r) in E.
  - intros Hn. destruct (filter _ rows) as [|r rest] eqn:E; [done|].
    assert (r ∈ filter (λ r, sor_content r = obj) rows) as Hr
      by (rewrite E; apply list_elem_of_here).
    apply list_elem_of_filter in Hr as [<- Hr]. destruct Hn.
    by apply list_elem_of_fmap_2.
Qed.

(** After a state change the object has exactly one row, holding the new
    state. *)
Lemma state_changed_rows cfg host obj from s w :
  get_state obj w = Ok from w →
  sor_filter obj (sors (state_changed cfg host obj from s w))
  = [{| sor_content := obj; sor_state := s |}].
Proof.
  intros [_ Hrows]%get_state_rows. unfold state_changed. simpl.
  destruct from as [s1|].
  - rewrite sor_filter_save, decide_True by done. by rewrite Hrows.
  - unfold sor_filter in *. rewrite filter_app, Hrows. simpl.
    by rewrite filter_cons, decide_True.
Qed.

Lemma state_changed_rows_other cfg host obj from s w e :
  e ≠ obj →
  sor_filter e (sors (state_changed cfg host obj from s w)) = sor_filter e (sors w).
Proof.
  intros He. unfold state_changed. simpl. destruct from as [s1|].
  - by rewrite sor_filter_save, decide_False.
  - unfold sor_filter. rewrite filter_app. simpl.
    rewrite filter_cons, decide_False by (simpl; congruence). by rewrite app_nil_r.
Qed.

(** [set_state] with a State instance, from a world where the object's
    state can be read. *)
Lemma set_state_instance cfg host obj s w from :
  get_state obj w = Ok from w →
  set_state cfg host obj (StateInstance s) w
  = Ok tt (state_changed cfg host obj from s w).
Proof.
  intros Hget. pose proof (state_changed_rows cfg host obj from s w Hget) as Hafter.
  apply get_state_rows in Hget as [_ Hrows].
  unfold set_state. unfold bind at 1 2 3. unfold ret at 1. unfold reading at 1.
  cbv beta iota. rewrite Hrows.
  unfold state_changed in Hafter. simpl in Hafter.
  destruct from as [s1|]; simpl; unfold bind, send, update, not_null, ret, record_history; simpl;
    destruct (WORKFLOWS_ENABLE_STATE_HISTORY host) eqn:Hh; simpl;
    rewrite update_permissions_run;
    match goal with
    | |- context [get_state obj ?w1] =>
        rewrite (get_state_of_rows obj w1 (Some s)) by exact Hafter
    end;
    unfold state_changed, with_grants, workflow_of; simpl; rewrite Hh;
    rewrite <- (assoc_L (++)); reflexivity.
Qed.

(** [set_state] with None: the hook before the change has been sent when
    the write is refused; nothing is stored. *)
Lemma set_state_none cfg host obj w from :
  get_state obj w = Ok from w →
  set_state cfg host obj StateNone w
  = Raised NullState (with_sent (λ l, l ++ [before_state_change obj from None]) w).
Proof.
  intros [_ Hrows]%get_state_rows.
  unfold set_state. unfold bind at 1 2 3. unfold ret at 1. unfold reading at 1.
  cbv beta iota. rewrite Hrows.
  by destruct from as [s1|].
Qed.

(** ** Invariance under the monad's combinators *)

Lemma preserves_ret P {A} (a : A) : preserves P (ret a).
Proof. by intros w. Qed.

Lemma preserves_raise P {A} e : preserves P (@raise A e).
Proof. by intros w. Qed.

Lemma preserves_reading P {A} (f : World → A) : preserves P (reading f).
Proof. by intros w. Qed.

Lemma preserves_update (P : World → Prop) f :
  (∀ w, P w → P (f w)) → preserves P (update f).
Proof. intros Hf w Hw. by apply Hf. Qed.

Lemma preserves_bind P {A B} (c : M A) (k : A → M B) :
  preserves P c → (∀ a, preserves P (k a)) → preserves P (bind c k).
Proof.
  intros Hc Hk w Hw. unfold bind. specialize (Hc w Hw).
  destruct (c w) as [a w'|e w']; simpl in *; [by apply Hk | done].
Qed.

Lemma preserves_for_each P {A B} (l : list A) (body : B → A → M B) acc :
  (∀ acc x, preserves P (body acc x)) → preserves P (for_each l body acc).
Proof.
  intros Hbody. revert acc. induction l as [|x l IH]; intros acc; simpl.
  - apply preserves_ret.
  - apply preserves_bind; [apply Hbody | intros acc'; apply IH].
Qed.

Create HintDb preserve.
#[local] Hint Resolve preserves_ret preserves_raise preserves_reading : preserve.

(** ** One row per object *)

(** The rows after [set_state], in whatever way it ends: untouched, the
    object's row rewritten, or a row appended for an object that had none. *)
Lemma set_state_sors cfg host obj st w (Q : list StateObjectRelation → Prop) :
  Q (sors w) →
  (∀ s, Q (sor_save obj s (sors w))) →
  (∀ s, sor_filter obj (sors w) = [] →
        Q (sors w ++ [{| sor_content := obj; sor_state := s |}])) →
  Q (sors (world_of (set_state cfg host obj st w))).
Proof.
  intros Hsame Hsave Hnew.
  assert (∀ (c : M unit) w0,
    sors (world_of ((c ;;; update_permissions cfg obj) w0)) = sors (world_of (c w0)))
    as Hlast.
  { intros c w0. unfold bind. destruct (c w0) as [[] w1|e w1]; simpl; [|done].
    apply update_permissions_frame. }
  unfold set_state. unfold bind at 1.
  destruct (match st with
            | StateInstance s => ret (Some s)
            | StateCodename c =>
                match state_by_codename cfg c with
                | Some s => ret (Some s)
                | None => raise DoesNotExist
                end
            | StateNone => ret None
            end w) as [state w1|e w1] eqn:Est.
  2: { unfold ret, raise in Est. destruct st as [s|c|]; try discriminate.
       destruct (state_by_codename cfg c); by simplify_eq. }
  assert (w1 = w) as ->.
  { unfold ret, raise in Est. destruct st as [s|c|]; try (by simplify_eq).
    destruct (state_by_codename cfg c); by simplify_eq. }
  unfold bind at 1. unfold reading at 1. cbv beta iota. rewrite Hlast.
  clear Est Hlast.
  destruct (sor_filter obj (sors w)) as [|r [|r' rest]] eqn:Erows; simpl;
    [| |done];
    (destruct state as [s|]; run; [|done]);
    unfold record_history; destruct (WORKFLOWS_ENABLE_STATE_HISTORY host); simpl;
    auto.
Qed.

(** The objects of the rows after [set_state]: unchanged, or extended by
    [obj] when it had no row. *)
Lemma set_state_objects cfg host obj st w :
  let keys := sor_content <$> sors w in
  let keys' := sor_content <$> sors (world_of (set_state cfg host obj st w)) in
  keys' = keys ∨ (keys' = keys ++ [obj] ∧ obj ∉ keys).
Proof.
  cbv zeta. apply set_state_sors.
  - by left.
  - intros s. left. apply sor_save_objects.
  - intros s Hnone. right. rewrite fmap_app. split; [done|].
    by apply sor_filter_nil_objects.
Qed.

Lemma set_state_one_binding cfg host obj st :
  preserves one_state_binding (set_state cfg host obj st).
Proof.
  intros w Hw. unfold one_state_binding in *.
  destruct (set_state_objects cfg host obj st w) as [->|[-> Hnew]]; [done|].
  apply NoDup_app. repeat split; [done| |apply NoDup_singleton].
  intros e He ->%list_elem_of_singleton. done.
Qed.

Lemma one_state_binding_other_tables (w w' : World) :
  sors w' = sors w → one_state_binding w → one_state_binding w'.
Proof. unfold one_state_binding. by intros ->. Qed.

Lemma one_state_binding_delete obj w :
  one_state_binding w → one_state_binding (with_sors (sor_delete obj) w).
Proof.
  unfold one_state_binding, sor_delete. simpl. intros Hw.
  eapply sublist_NoDup; [exact Hw|]. apply fmap_sublist, sublist_filter.
Qed.

#[local] Hint Resolve set_state_one_binding : preserve.

Ltac preserve :=
  repeat first
    [ progress auto with preserve
    | apply preserves_bind; [|intros ?]
    | apply preserves_for_each; intros ? ?
    | apply preserves_update; intros ? ?;
      first [ by apply one_state_binding_delete
            | by eapply one_state_binding_other_tables; [|eassumption] ]
    | match goal with
      | |- preserves _ (match ?x with _ => _ end) => destruct x
      | |- preserves _ (if ?x then _ else _) => destruct x
      end ].

Lemma set_initial_state_one_binding cfg host obj :
  preserves one_state_binding (set_initial_state cfg host obj).
Proof. unfold set_initial_state, get_workflow, get_workflow_for_object, get_workflow_for_model. preserve. Qed.

Lemma set_workflow_one_binding cfg host target wf :
  preserves one_state_binding (set_workflow cfg host target wf).
Proof.
  unfold set_workflow, Workflow_set_to, Workflow_set_to_model, Workflow_set_to_object.
  preserve.
Qed.

Lemma do_transition_one_binding cfg host obj transition user :
  preserves one_state_binding (do_transition cfg host obj transition user).
Proof.
  unfold do_transition, get_allowed_transitions, State_get_allowed_transitions,
    get_state, send.
  preserve.
Qed.

Lemma remove_workflow_one_binding cfg host target :
  preserves one_state_binding (remove_workflow cfg host target).
Proof.
  unfold remove_workflow, remove_workflow_from_model, remove_workflow_from_object,
    get_objects_for_workflow, Workflow_get_objects, wor_get_by_instance,
    get_workflow, get_workflow_for_object, get_workflow_for_model.
  pose proof (set_initial_state_one_binding cfg host) as Hinit.
  preserve.
Qed.

(** ** Permission recomputation *)

Lemma elem_of_reset (obj : Entity) (g : gset (Entity * nat * nat)) (e : Entity) (r p : nat) :
  (e, r, p) ∈ reset obj g ↔ (e, r, p) ∈ g ∧ e ≠ obj.
Proof. unfold reset. rewrite elem_of_filter. simpl. tauto. Qed.

Lemma get_state_same_rows obj (w w' : World) st :
  sors w' = sors w → get_state obj w = Ok st w → get_state obj w' = Ok st w'.
Proof.
  intros E [_ Hrows]%get_state_rows. apply get_state_of_rows. by rewrite E.
Qed.

(** C8. Permission recomputation is idempotent: running
    [update_permissions] twice in a row on an object ends exactly as running
    it once does, in the same world with the same grant table (and with the
    same exception if the object's state cannot be read). *)
Theorem update_permissions_idempotent (cfg : Config) (obj : Entity) (w : World) :
  (update_permissions cfg obj ;;; update_permissions cfg obj) w
  = update_permissions cfg obj w.
Proof.
  unfold bind. rewrite update_permissions_run.
  destruct (get_state obj w) as [st w0|e w0] eqn:Hget; [|done].
  pose proof (get_state_rows _ _ _ _ Hget) as [-> _].
  cbv beta iota. rewrite update_permissions_run.
  rewrite (get_state_same_rows obj w (with_grants _ w) st eq_refl Hget).
  unfold with_grants, workflow_of. simpl. do 2 f_equal. apply recomputed_idem.
Qed.

(** C4 (amended). [update_permissions] has no test for a missing workflow.
    For every object whose state can be read it returns, writes the grant
    table only, and leaves: every earlier grant except those on the object
    that pair a role of [Role.objects.all()] with a permission the object's
    workflow is responsible for, plus the (role, permission) pairs
    configured for the object's current state.  So it changes nothing when
    the object has no workflow and its state (if any) has no configured
    pair; a grant on the object for a workflow-managed permission and a
    listed role holds afterwards exactly when it is configured for the
    current state; and a grant for a permission the workflow is not
    responsible for holds afterwards exactly when it held before or is
    configured for the current state. *)
Theorem update_permissions_effect (cfg : Config) (obj : Entity) (w : World)
    (state : option nat) :
  get_state obj w = Ok state w →
  let w' := with_grants (recomputed cfg obj (workflow_of w obj) state) w in
  update_permissions cfg obj w = Ok tt w'
  ∧ (∀ (e : Entity) (r p : nat),
       (e, r, p) ∈ grants w' ↔
         ((e, r, p) ∈ grants w
          ∧ ¬ (e = obj ∧ r ∈ roles_all cfg ∧ p ∈ wpr_filter cfg (workflow_of w obj)))
         ∨ (e = obj ∧ (r, p) ∈ spr_filter cfg state))
  ∧ (workflow_of w obj = None → spr_filter cfg state = [] → w' = w)
  ∧ (∀ r p, r ∈ roles_all cfg → p ∈ wpr_filter cfg (workflow_of w obj) →
       ((obj, r, p) ∈ grants w' ↔ (r, p) ∈ spr_filter cfg state))
  ∧ (∀ r p, p ∉ wpr_filter cfg (workflow_of w obj) →
       ((obj, r, p) ∈ grants w' ↔
          (obj, r, p) ∈ grants w ∨ (r, p) ∈ spr_filter cfg state)).
Proof.
  intros Hget w'. split; [|split; [|split; [|split]]].
  - rewrite update_permissions_run. by rewrite Hget.
  - intros e r p. apply elem_of_recomputed.
  - intros Hwf Hspr. subst w'.
    assert (recomputed cfg obj (workflow_of w obj) state (grants w) = grants w) as Hg.
    { apply set_eq. intros [[e r] p]. rewrite elem_of_recomputed, Hwf, Hspr. simpl.
      rewrite !elem_of_nil. tauto. }
    destruct w as [a b c d g f]. unfold with_grants. simpl in *. by f_equal.
  - intros r p Hr Hp. subst w'. simpl. rewrite elem_of_recomputed. tauto.
  - intros r p Hp. subst w'. simpl. rewrite elem_of_recomputed. tauto.
Qed.

Lemma update_permissions_effect_witness :
  let w := Demo.bound Demo.doc Demo.review Demo.published in
  get_state Demo.doc w = Ok (Some Demo.published) w
  ∧ update_permissions Demo.cfg Demo.doc w
    = Ok tt (with_grants
               (recomputed Demo.cfg Demo.doc (workflow_of w Demo.doc)
                  (Some Demo.published)) w).
Proof.
  split; [reflexivity|].
  apply (update_permissions_effect Demo.cfg Demo.doc
           (Demo.bound Demo.doc Demo.review Demo.published) (Some Demo.published)).
  reflexivity.
Defined.

(** C4 fails as stated in two ways.  An object with a state but no
    workflow gets that state's pairs granted, so the run is not a no-op;
    and a pair configured for the state is granted even when its permission
    is not among those the workflow is responsible for. *)
Lemma update_permissions_counterexample :
  let orphan := Demo.stateful Demo.doc Demo.published in
  let bound := Demo.bound Demo.doc Demo.review Demo.published in
  (get_workflow Demo.doc orphan = Ok None orphan
   ∧ grants orphan = ∅
   ∧ grants (world_of (update_permissions Demo.cfg Demo.doc orphan))
     = {[ (Demo.doc, Demo.editor, Demo.can_edit);
          (Demo.doc, Demo.reader, Demo.can_comment) ]})
  ∧ (get_workflow Demo.doc bound = Ok (Some Demo.review) bound
     ∧ workflow_permissions Demo.cfg Demo.review = [Demo.can_publish; Demo.can_edit]
     ∧ grants bound = ∅
     ∧ grants (world_of (update_permissions Demo.cfg Demo.doc bound))
       = {[ (Demo.doc, Demo.editor, Demo.can_edit);
            (Demo.doc, Demo.reader, Demo.can_comment) ]}).
Proof. vm_compute. repeat split. Qed.

(** ** Assigning and removing a workflow *)

(** X24. Reassignment to a workflow with an explicit initial state.  Let
    [self] be a workflow with an explicit initial state [s0], and [obj] an
    object whose state reads [from] (possibly none).  If [obj] already has
    [self] as its own workflow, [set_to_object] does nothing: no write, no
    hook.  Otherwise ([obj] has no workflow of its own, or another one) it
    returns, [obj]'s own workflow is [self], its state is [s0], and exactly
    [before_state_change] and [after_state_change] have been sent, in this
    order, from [from] to [s0]. *)
Theorem set_to_object_resets_state (cfg : Config) (host : Host) (self : nat)
    (obj : Entity) (w : World) (from : option nat) (s0 : nat) :
  get_state obj w = Ok from w →
  initial_state cfg self = Some s0 →
  let w' := world_of (Workflow_set_to_object cfg host self obj w) in
  if decide (wors w !! obj = Some self)
  then Workflow_set_to_object cfg host self obj w = Ok tt w
  else Workflow_set_to_object cfg host self obj w = Ok tt w'
       ∧ get_workflow_for_object obj w' = Ok (Some self) w'
       ∧ get_state obj w' = Ok (Some s0) w'
       ∧ sent w' = sent w ++ [before_state_change obj from (Some s0);
                              after_state_change obj from (Some s0)].
Proof.
  intros Hget Hinit.
  assert (wors w !! obj ≠ Some self →
          Workflow_set_to_object cfg host self obj w
          = Ok tt (state_changed cfg host obj from s0 (with_wors (<[obj := self]>) w)))
    as Hrun.
  { intros Hne. unfold Workflow_set_to_object. rewrite Hinit. simpl.
    unfold bind at 1. unfold reading at 1. cbv beta iota.
    assert (get_state obj (with_wors (<[obj := self]>) w)
            = Ok from (with_wors (<[obj := self]>) w)) as Hget'
      by (by apply (get_state_same_rows obj w)).
    destruct (wors w !! obj) as [wf|] eqn:Ewor.
    - rewrite decide_True by congruence.
      unfold bind, update. cbv beta iota. by apply set_state_instance.
    - unfold bind, update. cbv beta iota. by apply set_state_instance. }
  cbv zeta. case_decide as Hown.
  - unfold Workflow_set_to_object. run. rewrite Hown.
    by rewrite decide_False by (intros ?; done).
  - rewrite (Hrun Hown). simpl. split; [done|]. split; [|split; [|done]].
    + unfold get_workflow_for_object. run. by rewrite lookup_insert_eq.
    + apply get_state_of_rows.
      apply (state_changed_rows cfg host obj from s0 (with_wors (<[obj := self]>) w)).
      by apply (get_state_same_rows obj w).
Qed.

Lemma set_to_object_resets_state_witness :
  let w := Demo.bound Demo.doc Demo.tickets Demo.opened in
  get_state Demo.doc w = Ok (Some Demo.opened) w
  ∧ initial_state Demo.cfg Demo.review = Some Demo.draft
  ∧ get_state Demo.doc
      (world_of (Workflow_set_to_object Demo.cfg Demo.plain Demo.review Demo.doc w))
    = Ok (Some Demo.draft)
        (world_of (Workflow_set_to_object Demo.cfg Demo.plain Demo.review Demo.doc w)).
Proof.
  split; [reflexivity|]. split; [reflexivity|].
  apply (set_to_object_resets_state Demo.cfg Demo.plain Demo.review Demo.doc
           (Demo.bound Demo.doc Demo.tickets Demo.opened)
           (Some Demo.opened) Demo.draft eq_refl eq_refl).
Defined.

(** C1. The code breaks the claim for a workflow without an explicit
    initial state.  [tickets] has none and [opened] is its first state,
    which is what [get_initial_state] answers.  [doc] has the workflow
    [review] and is in [published].  Reassigning [doc] to [tickets] should
    leave it in [opened], after [before_state_change] and
    [after_state_change] from [published].  Instead [set_to_object] hands
    [self.initial_state], which is None, to [set_state]: the call raises at
    the refused write, [doc] is still in [published] although it is now
    bound to [tickets], [before_state_change] has been sent with None as the
    new state and [after_state_change] has not been sent.  The sibling
    [set_initial_state], run on the world this leaves, does move [doc] to
    [opened]. *)
Theorem set_to_object_ignores_first_state :
  let w := Demo.bound Demo.doc Demo.review Demo.published in
  let run := Workflow_set_to_object Demo.cfg Demo.plain Demo.tickets Demo.doc w in
  let left := world_of run in
  initial_state Demo.cfg Demo.tickets = None
  ∧ Workflow_get_initial_state Demo.cfg Demo.tickets = Some Demo.opened
  ∧ get_workflow_for_object Demo.doc w = Ok (Some Demo.review) w
  ∧ get_state Demo.doc w = Ok (Some Demo.published) w
  ∧ run = Raised NullState left
  ∧ get_workflow_for_object Demo.doc left = Ok (Some Demo.tickets) left
  ∧ get_state Demo.doc left = Ok (Some Demo.published) left
  ∧ sent left = [before_state_change Demo.doc (Some Demo.published) None]
  ∧ get_state Demo.doc (world_of (set_initial_state Demo.cfg Demo.plain Demo.doc left))
    = Ok (Some Demo.opened)
        (world_of (set_initial_state Demo.cfg Demo.plain Demo.doc left)).
Proof. vm_compute. repeat split. Qed.

(** What [set_initial_state] does once the binding lookup and the reset
    are done, from a world whose state for [obj] reads [from]. *)
Lemma set_initial_state_run cfg host obj w from :
  get_state obj w = Ok from w →
  set_initial_state cfg host obj w
  = match workflow_of w obj with
    | None => Ok tt w
    | Some wf =>
        match Workflow_get_initial_state cfg wf with
        | Some s0 => Ok tt (state_changed cfg host obj from s0 w)
        | None =>
            Raised NullState
              (with_sent (λ l, l ++ [before_state_change obj from None]) w)
        end
    end.
Proof.
  intros Hget. unfold set_initial_state. unfold bind. rewrite get_workflow_run.
  destruct (workflow_of w obj) as [wf|]; [|done].
  destruct (Workflow_get_initial_state cfg wf) as [s0|]; simpl.
  - by apply set_state_instance.
  - by apply set_state_none.
Qed.

(** C2 (amended). [remove_workflow] on an object never deletes the
    object's StateObjectRelation.  If the call raises, the state rows are as
    before.  If it returns, every grant the object held before has been
    revoked, and: when the object resolves no workflow afterwards, its state
    rows are as before (its state is not emptied), no hook has been sent
    and it holds no grant; when it still resolves a workflow, that workflow
    has an initial state [s0], the object is in [s0], exactly
    [before_state_change] and [after_state_change] from its earlier state to
    [s0] have been sent, and the grants on the object are exactly the pairs
    configured for [s0]. *)
Theorem remove_workflow_keeps_state_binding (cfg : Config) (host : Host)
    (obj : Entity) (w : World) (from : option nat) :
  get_state obj w = Ok from w →
  match remove_workflow cfg host (OfObject obj) w with
  | Raised _ w' => sors w' = sors w
  | Ok _ w' =>
      match workflow_of w' obj with
      | None =>
          sors w' = sors w ∧ sent w' = sent w
          ∧ ∀ r p, (obj, r, p) ∉ grants w'
      | Some wf =>
          ∃ s0, Workflow_get_initial_state cfg wf = Some s0
                ∧ get_state obj w' = Ok (Some s0) w'
                ∧ sent w' = sent w ++ [before_state_change obj from (Some s0);
                                       after_state_change obj from (Some s0)]
                ∧ ∀ r p, (obj, r, p) ∈ grants w' ↔ (r, p) ∈ state_permissions cfg s0
      end
  end.
Proof.
  intros Hget.
  assert (∀ w1, sors w1 = sors w → sent w1 = sent w →
                (∀ r p, (obj, r, p) ∉ grants w1) →
    match set_initial_state cfg host obj w1 with
    | Raised _ w' => sors w' = sors w
    | Ok _ w' =>
        match workflow_of w' obj with
        | None =>
            sors w' = sors w ∧ sent w' = sent w
            ∧ ∀ r p, (obj, r, p) ∉ grants w'
        | Some wf =>
            ∃ s0, Workflow_get_initial_state cfg wf = Some s0
                  ∧ get_state obj w' = Ok (Some s0) w'
                  ∧ sent w' = sent w ++ [before_state_change obj from (Some s0);
                                         after_state_change obj from (Some s0)]
                  ∧ ∀ r p, (obj, r, p) ∈ grants w' ↔ (r, p) ∈ state_permissions cfg s0
        end
    end) as Hinit.
  { intros w1 Hsors Hsent Hnone.
    pose proof (get_state_same_rows obj w w1 from Hsors Hget) as Hget1.
    rewrite (set_initial_state_run cfg host obj w1 from Hget1).
    destruct (workflow_of w1 obj) as [wf|] eqn:Ewf.
    - destruct (Workflow_get_initial_state cfg wf) as [s0|] eqn:Es0; [|done].
      replace (workflow_of (state_changed cfg host obj from s0 w1) obj)
        with (Some wf) by (by rewrite <- Ewf).
      exists s0. split; [done|]. split; [|split].
      + apply get_state_of_rows. by apply state_changed_rows.
      + simpl. by rewrite Hsent.
      + intros r p. simpl. rewrite elem_of_recomputed. simpl.
        specialize (Hnone r p). tauto.
    - rewrite Ewf. done. }
  unfold remove_workflow, remove_workflow_from_object, wor_get_by_instance.
  destruct (instance_lookup host); [|done].
  unfold bind at 1 2 3. unfold reading at 1. cbv beta iota.
  destruct (objects_get _) as [content| |]; [| |done].
  - unfold update. cbv beta iota. apply Hinit; [done..|].
    intros r p Hin. simpl in Hin. apply elem_of_reset in Hin. tauto.
  - unfold ret, update. cbv beta iota. apply Hinit; [done..|].
    intros r p Hin. simpl in Hin. apply elem_of_reset in Hin. tauto.
Qed.

Lemma remove_workflow_keeps_state_binding_witness :
  let w := with_wmrs (λ _, {[ 5 := Demo.review ]})
             (Demo.bound Demo.memo Demo.tickets Demo.opened) in
  get_state Demo.memo w = Ok (Some Demo.opened) w
  ∧ match remove_workflow Demo.cfg Demo.plain (OfObject Demo.memo) w with
    | Raised _ w' => sors w' = sors w
    | Ok _ w' =>
        match workflow_of w' Demo.memo with
        | None =>
            sors w' = sors w ∧ sent w' = sent w
            ∧ ∀ r p, (Demo.memo, r, p) ∉ grants w'
        | Some wf =>
            ∃ s0, Workflow_get_initial_state Demo.cfg wf = Some s0
                  ∧ get_state Demo.memo w' = Ok (Some s0) w'
                  ∧ sent w' = sent w
                      ++ [before_state_change Demo.memo (Some Demo.opened) (Some s0);
                          after_state_change Demo.memo (Some Demo.opened) (Some s0)]
                  ∧ ∀ r p, (Demo.memo, r, p) ∈ grants w'
                           ↔ (r, p) ∈ state_permissions Demo.cfg s0
        end
    end.
Proof.
  split; [reflexivity|].
  apply (remove_workflow_keeps_state_binding Demo.cfg Demo.plain Demo.memo
           (with_wmrs (λ _, {[ 5 := Demo.review ]})
              (Demo.bound Demo.memo Demo.tickets Demo.opened))
           (Some Demo.opened) eq_refl).
Defined.

(** C2 fails as stated.  [doc] has its own workflow [review] and is in
    [published], holding a grant; its content type has no workflow.  Where
    the ORM compares the lookup value by primary key the binding is found
    and deleted and the grants are reset, but the state row stays and
    [get_state] still answers [published]; where the ORM checks the class of
    the lookup value the call raises at once and nothing is removed at
    all. *)
Lemma remove_workflow_counterexample :
  let w := with_grants (λ _, {[ (Demo.doc, Demo.editor, Demo.can_edit) ]})
             (Demo.bound Demo.doc Demo.review Demo.published) in
  (get_workflow_for_object Demo.doc w = Ok (Some Demo.review) w
   ∧ get_state Demo.doc w = Ok (Some Demo.published) w)
  ∧ (let after := world_of (remove_workflow Demo.cfg Demo.plain (OfObject Demo.doc) w) in
     remove_workflow Demo.cfg Demo.plain (OfObject Demo.doc) w = Ok tt after
     ∧ get_workflow Demo.doc after = Ok None after
     ∧ grants after = ∅
     ∧ get_state Demo.doc after = Ok (Some Demo.published) after)
  ∧ (let strict := Demo.host TypeChecked None true (Value true) in
     remove_workflow Demo.cfg strict (OfObject Demo.doc) w
     = Raised WrongModelInstance w).
Proof. vm_compute. repeat split. Qed.

(** ** Allowed transitions *)

(** The loop keeps, in order, the transitions whose turn answers true, and
    returns only if no turn raises. *)
Lemma allowed_loop_inr host g obj user todo acc l :
  allowed_loop host g obj user todo acc = inr l →
  l = acc ++ filter (λ t, transition_allowed host g obj user t = inr true) todo
  ∧ ∀ t, t ∈ todo → ∃ b, transition_allowed host g obj user t = inr b.
Proof.
  revert acc. induction todo as [|t todo IH]; intros acc; simpl.
  - intros [= <-]. split; [by rewrite app_nil_r|]. by intros t ?%elem_of_nil.
  - destruct (transition_allowed host g obj user t) as [e|[|]] eqn:Et; [done|..];
      intros [-> Hall]%IH; rewrite filter_cons, Et.
    + rewrite decide_True by done. rewrite <- (assoc_L (++)). split; [done|].
      intros t' [->|Hin]%elem_of_cons; eauto.
    + rewrite decide_False by done. split; [done|].
      intros t' [->|Hin]%elem_of_cons; eauto.
Qed.

Lemma allowed_loop_ext host host' g obj user todo acc :
  (∀ t, transition_allowed host g obj user t = transition_allowed host' g obj user t) →
  allowed_loop host g obj user todo acc = allowed_loop host' g obj user todo acc.
Proof.
  intros Hext. revert acc. induction todo as [|t todo IH]; intros acc; simpl; [done|].
  rewrite Hext. destruct (transition_allowed host' g obj user t) as [e|[|]]; auto.
Qed.

(** A returned list of allowed transitions, read back: the object has a
    state, and the list is the loop's result on that state's transitions. *)
Lemma get_allowed_transitions_inv cfg host obj user w l w' :
  get_allowed_transitions cfg host obj user w = Ok l w' →
  w' = w
  ∧ match get_state obj w with
    | Ok (Some state) _ =>
        allowed_loop host (grants w) obj user (transitions_all cfg state) [] = inr l
    | Ok None _ => l = []
    | Raised _ _ => False
    end.
Proof.
  unfold get_allowed_transitions, State_get_allowed_transitions. unfold bind at 1.
  destruct (get_state obj w) as [[state|] w0|e w0] eqn:Hget; [| |done].
  - apply get_state_rows in Hget as [-> _]. run.
    destruct (allowed_loop _ _ _ _ _ _) as [e|l0]; [done|]. by intros [= -> ->].
  - apply get_state_rows in Hget as [-> _]. by intros [= <- <-].
Qed.

Lemma allowed_membership cfg host obj user w state l (t : Transition) :
  get_state obj w = Ok (Some state) w →
  get_allowed_transitions cfg host obj user w = Ok l w →
  t ∈ l ↔ t ∈ transitions_all cfg state
          ∧ transition_allowed host (grants w) obj user t = inr true.
Proof.
  intros Hget [_ Hl]%get_allowed_transitions_inv. rewrite Hget in Hl.
  apply allowed_loop_inr in Hl as [-> _]. simpl.
  rewrite list_elem_of_filter. tauto.
Qed.

(** C3 (amended). For a transition [t] that requires a permission, and a
    returned list [l] of allowed transitions of an object in state [state]:
    [t] is in [l] exactly when it is one of the state's transitions, the
    deciding check passes and the guard is met, where the deciding check is
    the object's own [has_permission] when that call returns a verdict and
    the default check when the call raises AttributeError (the attribute is
    missing, or the method itself raised it).  In particular a failed
    deciding check keeps [t] out whatever the guard says.  If the object's
    own call raises anything else on one of the state's transitions, no list
    is returned. *)
Theorem transition_gating (cfg : Config) (host : Host) (obj : Entity) (user : nat)
    (w : World) (state : nat) (l : list Transition) (t : Transition)
    (permission : nat) :
  get_state obj w = Ok (Some state) w →
  get_allowed_transitions cfg host obj user w = Ok l w →
  t_permission t = Some permission →
  (t ∈ l ↔ t ∈ transitions_all cfg state
           ∧ deciding_check host (grants w) obj user permission = Some true
           ∧ _condition_met host obj user t = true)
  ∧ (deciding_check host (grants w) obj user permission = Some false → t ∉ l)
  ∧ (deciding_check host (grants w) obj user permission = None →
     t ∉ transitions_all cfg state).
Proof.
  intros Hget Hl Hperm.
  assert (transition_allowed host (grants w) obj user t
          = match deciding_check host (grants w) obj user permission with
            | Some b => inr (b && _condition_met host obj user t)
            | None => match call_obj_has_permission host obj user permission with
                      | CallRaises e => inl e
                      | Returns _ => inr false
                      end
            end) as Hstep.
  { unfold transition_allowed, deciding_check. rewrite Hperm.
    destruct (call_obj_has_permission host obj user permission) as [b|[]]; done. }
  pose proof (allowed_membership cfg host obj user w state l t Hget Hl) as Hmem.
  split; [|split].
  - rewrite Hmem, Hstep.
    destruct (deciding_check host (grants w) obj user permission) as [[|]|];
      destruct (_condition_met host obj user t); simpl;
      try (destruct (call_obj_has_permission host obj user permission));
      intuition congruence.
  - intros Hfail. rewrite Hmem, Hstep, Hfail. simpl. intuition congruence.
  - intros Hnone Hin.
    apply get_allowed_transitions_inv in Hl as [_ Hl]. rewrite Hget in Hl.
    apply allowed_loop_inr in Hl as [_ Hall]. destruct (Hall t Hin) as [b Hb].
    rewrite Hstep, Hnone in Hb. unfold deciding_check in Hnone.
    destruct (call_obj_has_permission host obj user permission) as [?|[]]; done.
Qed.

Lemma transition_gating_witness :
  let w := Demo.bound Demo.doc Demo.review Demo.draft in
  let host := Demo.host PkCoercion (Some (Returns false)) true (Value true) in
  get_state Demo.doc w = Ok (Some Demo.draft) w
  ∧ get_allowed_transitions Demo.cfg host Demo.doc Demo.alice w = Ok [Demo.comment] w
  ∧ t_permission Demo.publish = Some Demo.can_publish
  ∧ (deciding_check host (grants w) Demo.doc Demo.alice Demo.can_publish = Some false →
     Demo.publish ∉ [Demo.comment]).
Proof.
  split; [reflexivity|]. split; [reflexivity|]. split; [reflexivity|].
  apply (transition_gating Demo.cfg
           (Demo.host PkCoercion (Some (Returns false)) true (Value true))
           Demo.doc Demo.alice (Demo.bound Demo.doc Demo.review Demo.draft)
           Demo.draft [Demo.comment] Demo.publish Demo.can_publish
           eq_refl eq_refl eq_refl).
Defined.

(** C3 fails as stated.  [doc] exposes its own [has_permission], and that
    call raises AttributeError, so the object's own check does not pass;
    the default check passes and [publish] has no guard.  [publish] is
    allowed all the same. *)
Lemma transition_gating_counterexample :
  let w := Demo.bound Demo.doc Demo.review Demo.draft in
  let host := Demo.host PkCoercion (Some (CallRaises AttributeError)) true (Value true) in
  (∃ method, obj_has_permission host Demo.doc = Some method
             ∧ method Demo.alice Demo.can_publish = CallRaises AttributeError)
  ∧ t_permission Demo.publish = Some Demo.can_publish
  ∧ get_allowed_transitions Demo.cfg host Demo.doc Demo.alice w
    = Ok [Demo.publish; Demo.comment] w.
Proof. split; [by eexists|]. by vm_compute. Qed.

Lemma condition_met_fail_closed host obj user t :
  _condition_met (fail_closed host) obj user t = _condition_met host obj user t.
Proof.
  unfold _condition_met, fail_closed. simpl.
  case_decide; [done|]. by destruct (eval host _ _ _ _).
Qed.

Lemma get_allowed_transitions_ext cfg host host' obj user w :
  (∀ g t, transition_allowed host g obj user t = transition_allowed host' g obj user t) →
  get_allowed_transitions cfg host obj user w
  = get_allowed_transitions cfg host' obj user w.
Proof.
  intros Hext. unfold get_allowed_transitions, State_get_allowed_transitions, bind.
  destruct (get_state obj w) as [[state|] w0|e w0]; [|done..].
  simpl. by rewrite (allowed_loop_ext host host') by apply Hext.
Qed.

(** C7. Let [t] have a non-empty guard whose evaluation raises.  Then the
    guard counts as not met; [t] is in no returned list of allowed
    transitions; and the error goes no further: the computation of allowed
    transitions ends exactly as it does with an evaluator that answers
    false wherever this one raises.  A transition with an empty guard has
    its guard met. *)
Theorem guard_failure_is_fail_closed (cfg : Config) (host : Host) (obj : Entity)
    (user : nat) (w : World) (t : Transition) (e : Exn) :
  t_condition t ≠ "" →
  eval host (t_condition t) obj user t = EvalRaises e →
  _condition_met host obj user t = false
  ∧ match get_allowed_transitions cfg host obj user w with
    | Ok l _ => t ∉ l
    | Raised _ _ => True
    end
  ∧ get_allowed_transitions cfg host obj user w
    = get_allowed_transitions cfg (fail_closed host) obj user w
  ∧ ∀ t0, t_condition t0 = "" → _condition_met host obj user t0 = true.
Proof.
  intros Hguard Heval.
  assert (_condition_met host obj user t = false) as Hmet.
  { unfold _condition_met. rewrite decide_False by done. by rewrite Heval. }
  split; [done|]. split; [|split].
  - destruct (get_allowed_transitions cfg host obj user w) as [l w'|] eqn:Hl; [|done].
    pose proof (get_allowed_transitions_inv _ _ _ _ _ _ _ Hl) as [-> Hloop].
    destruct (get_state obj w) as [[state|] w0|] eqn:Hget; [| |done].
    + apply allowed_loop_inr in Hloop as [-> _]. simpl.
      intros [Hstep _]%list_elem_of_filter. revert Hstep.
      unfold transition_allowed. rewrite Hmet.
      destruct (t_permission t) as [p|]; [|done].
      destruct (call_obj_has_permission host obj user p) as [b|[]];
        rewrite ?andb_false_r; done.
    + subst l. apply not_elem_of_nil.
  - apply get_allowed_transitions_ext. intros g t0.
    unfold transition_allowed. by rewrite condition_met_fail_closed.
  - intros t0 Hempty. unfold _condition_met. by rewrite decide_True.
Qed.

Lemma guard_failure_is_fail_closed_witness :
  let w := Demo.bound Demo.doc Demo.review Demo.draft in
  let host := Demo.host PkCoercion None true (EvalRaises (HostError 0)) in
  t_condition Demo.comment ≠ ""
  ∧ eval host (t_condition Demo.comment) Demo.doc Demo.alice Demo.comment
    = EvalRaises (HostError 0)
  ∧ get_allowed_transitions Demo.cfg host Demo.doc Demo.alice w = Ok [Demo.publish] w
  ∧ get_allowed_transitions Demo.cfg host Demo.doc Demo.alice w
    = get_allowed_transitions Demo.cfg (fail_closed host) Demo.doc Demo.alice w.
Proof.
  split; [discriminate|]. split; [reflexivity|]. split; [reflexivity|].
  apply (guard_failure_is_fail_closed Demo.cfg
           (Demo.host PkCoercion None true (EvalRaises (HostError 0)))
           Demo.doc Demo.alice (Demo.bound Demo.doc Demo.review Demo.draft)
           Demo.comment (HostError 0)); [discriminate | reflexivity].
Defined.

(** C10. Let the object have its own [has_permission] and let the call
    raise AttributeError for the permission that [t] requires.  Then the
    loop's turn for [t] does not raise and is decided by the default check
    together with the guard; and in a returned list of allowed transitions
    of an object in state [state], [t] is present exactly when it is one of
    the state's transitions, the default check passes and the guard is met,
    although the object's own check ended in an error. *)
Theorem attribute_error_falls_back (cfg : Config) (host : Host) (obj : Entity)
    (user : nat) (w : World) (state : nat) (l : list Transition)
    (t : Transition) (permission : nat)
    (method : nat → nat → CallOutcome) :
  obj_has_permission host obj = Some method →
  method user permission = CallRaises AttributeError →
  t_permission t = Some permission →
  get_state obj w = Ok (Some state) w →
  get_allowed_transitions cfg host obj user w = Ok l w →
  transition_allowed host (grants w) obj user t
  = inr (permissions_has_permission host (grants w) obj user permission
         && _condition_met host obj user t)
  ∧ (t ∈ l ↔ t ∈ transitions_all cfg state
             ∧ permissions_has_permission host (grants w) obj user permission = true
             ∧ _condition_met host obj user t = true).
Proof.
  intros Hown Hraise Hperm Hget Hl.
  assert (transition_allowed host (grants w) obj user t
          = inr (permissions_has_permission host (grants w) obj user permission
                 && _condition_met host obj user t)) as Hstep.
  { unfold transition_allowed, call_obj_has_permission.
    by rewrite Hperm, Hown, Hraise. }
  split; [done|].
  rewrite (allowed_membership cfg host obj user w state l t Hget Hl), Hstep.
  split.
  - intros [Hin [= Hb]]. apply andb_true_iff in Hb. tauto.
  - intros (Hin & -> & ->). done.
Qed.

Lemma attribute_error_falls_back_witness :
  let w := Demo.bound Demo.doc Demo.review Demo.draft in
  let host := Demo.host PkCoercion (Some (CallRaises AttributeError)) true (Value true) in
  obj_has_permission host Demo.doc = Some (λ _ _, CallRaises AttributeError)
  ∧ get_state Demo.doc w = Ok (Some Demo.draft) w
  ∧ get_allowed_transitions Demo.cfg host Demo.doc Demo.alice w
    = Ok [Demo.publish; Demo.comment] w
  ∧ transition_allowed host (grants w) Demo.doc Demo.alice Demo.publish
    = inr (permissions_has_permission host (grants w) Demo.doc Demo.alice Demo.can_publish
           && _condition_met host Demo.doc Demo.alice Demo.publish).
Proof.
  split; [reflexivity|]. split; [reflexivity|]. split; [reflexivity|].
  apply (attribute_error_falls_back Demo.cfg
           (Demo.host PkCoercion (Some (CallRaises AttributeError)) true (Value true))
           Demo.doc Demo.alice (Demo.bound Demo.doc Demo.review Demo.draft)
           Demo.draft [Demo.publish; Demo.comment] Demo.publish Demo.can_publish
           (λ _ _, CallRaises AttributeError)
           eq_refl eq_refl eq_refl eq_refl eq_refl).
Defined.

(** ** Applying a transition *)

(** C5. [do_transition] returns False, leaving the world exactly as it was
    (same state rows and history, no signal sent) and without raising, in
    both refusals: the argument is a codename that names no transition; or
    the transition is resolved, the allowed transitions are computed as the
    list [l], and the transition is not among them. *)
Theorem do_transition_refuses (cfg : Config) (host : Host) (obj : Entity)
    (transition : TransitionArg) (user : nat) (w : World) :
  resolve_transition cfg transition = None
  ∨ (∃ t l, resolve_transition cfg transition = Some t
            ∧ get_allowed_transitions cfg host obj user w = Ok l w
            ∧ transition_in t l = false) →
  do_transition cfg host obj transition user w = Ok false w.
Proof.
  unfold do_transition. intros [->|(t & l & -> & Hl & Hin)]; [done|].
  unfold bind. by rewrite Hl, Hin.
Qed.

Lemma do_transition_refuses_witness :
  let w := Demo.bound Demo.doc Demo.review Demo.published in
  (resolve_transition Demo.cfg (TransitionCodename "archive") = None
   ∧ do_transition Demo.cfg Demo.plain Demo.doc (TransitionCodename "archive") Demo.alice w
     = Ok false w)
  ∧ (get_allowed_transitions Demo.cfg Demo.plain Demo.doc Demo.alice w = Ok [Demo.comment] w
     ∧ transition_in Demo.publish [Demo.comment] = false
     ∧ do_transition Demo.cfg Demo.plain Demo.doc (TransitionInstance Demo.publish) Demo.alice w
       = Ok false w).
Proof.
  split.
  - split; [reflexivity|].
    apply (do_transition_refuses Demo.cfg Demo.plain Demo.doc
             (TransitionCodename "archive") Demo.alice
             (Demo.bound Demo.doc Demo.review Demo.published)).
    left. reflexivity.
  - split; [reflexivity|]. split; [reflexivity|].
    apply (do_transition_refuses Demo.cfg Demo.plain Demo.doc
             (TransitionInstance Demo.publish) Demo.alice
             (Demo.bound Demo.doc Demo.review Demo.published)).
    right. exists Demo.publish, [Demo.comment]. repeat split; reflexivity.
Defined.

(** C6. Let [t] be the resolved transition, allowed for the object and the
    user, with no destination or with the object's current state as its
    destination.  Then [do_transition] returns True, sends exactly
    [before_transition] and then [after_transition], and writes nothing
    else: the state read afterwards is the same and the history has no new
    entry. *)
Theorem do_transition_in_place (cfg : Config) (host : Host) (obj : Entity)
    (transition : TransitionArg) (user : nat) (w : World) (t : Transition)
    (l : list Transition) (from : option nat) :
  resolve_transition cfg transition = Some t →
  get_state obj w = Ok from w →
  get_allowed_transitions cfg host obj user w = Ok l w →
  transition_in t l = true →
  t_destination t = None ∨ t_destination t = from →
  let w' := with_sent (λ s, s ++ [before_transition obj from t user;
                                  after_transition obj from t user]) w in
  do_transition cfg host obj transition user w = Ok true w'
  ∧ get_state obj w' = Ok from w'
  ∧ sors w' = sors w
  ∧ history w' = history w.
Proof.
  intros Hres Hget Hl Hin Hdest w'. split; [|split; [|done]].
  - unfold do_transition. rewrite Hres. unfold bind at 1. rewrite Hl, Hin.
    unfold bind at 1. rewrite Hget. unfold bind at 1. unfold send at 1.
    unfold update at 1. cbv beta iota.
    assert (match t_destination t with
            | Some destination =>
                if decide (Some destination ≠ from)
                then set_state cfg host obj (StateInstance destination)
                else ret tt
            | None => ret tt
            end = ret tt) as ->.
    { destruct Hdest as [->| ->]; [done|].
      destruct from as [s|]; [|done]. by rewrite decide_False by (intros ?; done). }
    run. subst w'. unfold with_sent. simpl. by rewrite <- (assoc_L (++)).
  - by apply (get_state_same_rows obj w).
Qed.

Lemma do_transition_in_place_witness :
  let w := Demo.bound Demo.doc Demo.review Demo.published in
  get_allowed_transitions Demo.cfg Demo.plain Demo.doc Demo.alice w = Ok [Demo.comment] w
  ∧ do_transition Demo.cfg Demo.plain Demo.doc (TransitionCodename "comment") Demo.alice w
    = Ok true
        (with_sent
           (λ s, s ++ [before_transition Demo.doc (Some Demo.published) Demo.comment Demo.alice;
                       after_transition Demo.doc (Some Demo.published) Demo.comment Demo.alice])
           w).
Proof.
  split; [reflexivity|].
  apply (do_transition_in_place Demo.cfg Demo.plain Demo.doc
           (TransitionCodename "comment") Demo.alice
           (Demo.bound Demo.doc Demo.review Demo.published)
           Demo.comment [Demo.comment] (Some Demo.published)
           eq_refl eq_refl eq_refl eq_refl (or_introl eq_refl)).
Defined.

(** ** The uniqueness invariant *)

(** C9. From a world with at most one StateObjectRelation row per object,
    [set_state], [set_workflow], [do_transition] and [remove_workflow]
    leave, however they end, a world with at most one row per object.
    [set_state] with a State instance keeps the objects of the rows as
    they are when the object has a row, rewriting it in place, and appends
    one row only for an object that has none. *)
Theorem one_state_binding_invariant (cfg : Config) (host : Host) (w : World) :
  one_state_binding w →
  (∀ obj state, one_state_binding (world_of (set_state cfg host obj state w)))
  ∧ (∀ target wf, one_state_binding (world_of (set_workflow cfg host target wf w)))
  ∧ (∀ obj transition user,
       one_state_binding (world_of (do_transition cfg host obj transition user w)))
  ∧ (∀ target, one_state_binding (world_of (remove_workflow cfg host target w)))
  ∧ (∀ obj s,
       let w' := world_of (set_state cfg host obj (StateInstance s) w) in
       sor_content <$> sors w'
       = (if decide (obj ∈ sor_content <$> sors w)
          then sor_content <$> sors w
          else (sor_content <$> sors w) ++ [obj])
       ∧ get_state obj w' = Ok (Some s) w').
Proof.
  intros Hw. split; [|split; [|split; [|split]]].
  - intros obj state. by apply set_state_one_binding.
  - intros target wf. by apply set_workflow_one_binding.
  - intros obj transition user. by apply do_transition_one_binding.
  - intros target. by apply remove_workflow_one_binding.
  - intros obj s w'.
    assert (∃ from, get_state obj w = Ok from w) as [from Hget].
    { rewrite get_state_run.
      destruct (sor_filter obj (sors w)) as [|r [|r' rest]] eqn:Erows; simpl; eauto.
      exfalso. unfold one_state_binding in Hw.
      assert (r ∈ sor_filter obj (sors w)) as Hr by (rewrite Erows; set_solver).
      assert (r' ∈ sor_filter obj (sors w)) as Hr' by (rewrite Erows; set_solver).
      apply list_elem_of_filter in Hr as [Hr _].
      apply list_elem_of_filter in Hr' as [Hr' _].
      assert (NoDup (sor_content <$> sor_filter obj (sors w))) as Hnd.
      { eapply sublist_NoDup; [exact Hw|]. apply fmap_sublist, sublist_filter. }
      rewrite Erows in Hnd. simpl in Hnd. rewrite Hr, Hr' in Hnd.
      apply NoDup_cons in Hnd as [Hnd _]. apply Hnd. set_solver. }
    subst w'. rewrite (set_state_instance cfg host obj s w from Hget). simpl.
    split.
    + apply get_state_rows in Hget as [_ Hrows]. destruct from as [s1|].
      * rewrite sor_save_objects. rewrite decide_True; [done|].
        destruct (decide (obj ∈ sor_content <$> sors w)) as [|Hn]; [done|].
        apply sor_filter_nil_objects in Hn. by rewrite Hn in Hrows.
      * rewrite fmap_app. simpl. rewrite decide_False; [done|].
        by apply sor_filter_nil_objects.
    + apply get_state_of_rows. by apply state_changed_rows.
Qed.

Lemma one_state_binding_invariant_witness :
  let w := Demo.bound Demo.doc Demo.review Demo.draft in
  one_state_binding w
  ∧ one_state_binding
      (world_of (do_transition Demo.cfg Demo.plain Demo.doc
                   (TransitionInstance Demo.publish) Demo.alice w))
  ∧ sors (world_of (do_transition Demo.cfg Demo.plain Demo.doc
                      (TransitionInstance Demo.publish) Demo.alice w))
    = [{| sor_content := Demo.doc; sor_state := Demo.published |}].
Proof.
  assert (one_state_binding (Demo.bound Demo.doc Demo.review Demo.draft)) as Hw
    by (apply (bool_decide_unpack _); vm_compute; exact I).
  split; [exact Hw|]. split; [|reflexivity].
  apply (one_state_binding_invariant Demo.cfg Demo.plain
           (Demo.bound Demo.doc Demo.review Demo.draft) Hw).
Defined.

(** * Further properties of the engine *)

(** ** What the operations never touch *)

Ltac unfold_engine :=
  unfold remove_workflow, remove_workflow_from_model, remove_workflow_from_object,
    get_objects_for_workflow, Workflow_get_objects, wor_get_by_instance,
    set_workflow, Workflow_set_to, Workflow_set_to_model, Workflow_set_to_object,
    do_transition, get_allowed_transitions, State_get_allowed_transitions,
    set_initial_state, set_state, update_permissions, record_history, not_null,
    get_state, get_workflow, get_workflow_for_object, get_workflow_for_model, send.

(** Walks a computation down to its reads and writes; [tac] shows that a
    write keeps the property. *)
Ltac preserve_by tac :=
  repeat first
    [ apply preserves_ret
    | apply preserves_raise
    | apply preserves_reading
    | apply preserves_bind; [|intros ?]
    | apply preserves_for_each; intros ? ?
    | apply preserves_update; intros ? ?; tac
    | match goal with
      | |- preserves _ (match ?x with _ => _ end) => destruct x eqn:?
      | |- preserves _ (if ?x then _ else _) => destruct x eqn:?
      end ].

Lemma logs_grow cfg host (w0 : World) :
  let P := λ w', history w0 `prefix_of` history w' ∧ sent w0 `prefix_of` sent w' in
  (∀ obj state, preserves P (set_state cfg host obj state))
  ∧ (∀ target wf, preserves P (set_workflow cfg host target wf))
  ∧ (∀ obj transition user, preserves P (do_transition cfg host obj transition user))
  ∧ (∀ target, preserves P (remove_workflow cfg host target)).
Proof.
  cbv zeta. split; [|split; [|split]]; intros; unfold_engine;
    preserve_by ltac:(simpl; intuition (try done); by apply prefix_app_r).
Qed.

(** X1. The state history and the record of sent signals only grow:
    whatever [set_state], [set_workflow], [do_transition] or
    [remove_workflow] does, and whether it returns or raises, the earlier
    history entries and the earlier signals are still there, in place, as a
    prefix of what is there afterwards. *)
Theorem logs_append_only (cfg : Config) (host : Host) (w : World) :
  (∀ obj state,
     let w' := world_of (set_state cfg host obj state w) in
     history w `prefix_of` history w' ∧ sent w `prefix_of` sent w')
  ∧ (∀ target wf,
       let w' := world_of (set_workflow cfg host target wf w) in
       history w `prefix_of` history w' ∧ sent w `prefix_of` sent w')
  ∧ (∀ obj transition user,
       let w' := world_of (do_transition cfg host obj transition user w) in
       history w `prefix_of` history w' ∧ sent w `prefix_of` sent w')
  ∧ (∀ target,
       let w' := world_of (remove_workflow cfg host target w) in
       history w `prefix_of` history w' ∧ sent w `prefix_of` sent w').
Proof.
  destruct (logs_grow cfg host w) as (H1 & H2 & H3 & H4).
  split; [|split; [|split]]; intros; cbv zeta.
  - by apply H1.
  - by apply H2.
  - by apply H3.
  - by apply H4.
Qed.

(** X2. With [WORKFLOWS_ENABLE_STATE_HISTORY] off no operation writes the
    history table: after [set_state], [set_workflow], [do_transition] or
    [remove_workflow] it is exactly what it was. *)
Theorem history_off_writes_nothing (cfg : Config) (host : Host) (w : World) :
  WORKFLOWS_ENABLE_STATE_HISTORY host = false →
  (∀ obj state, history (world_of (set_state cfg host obj state w)) = history w)
  ∧ (∀ target wf, history (world_of (set_workflow cfg host target wf w)) = history w)
  ∧ (∀ obj transition user,
       history (world_of (do_transition cfg host obj transition user w)) = history w)
  ∧ (∀ target, history (world_of (remove_workflow cfg host target w)) = history w).
Proof.
  intros Hoff.
  assert (∀ A (c : M A), preserves (λ w', history w' = history w) c →
                         history (world_of (c w)) = history w) as Hrun
    by (intros A c Hc; by apply Hc).
  split; [|split; [|split]]; intros; apply Hrun; unfold_engine;
    preserve_by ltac:(simpl; congruence).
Qed.

Lemma history_off_writes_nothing_witness :
  let host := without_history Demo.plain in
  let w := Demo.bound Demo.doc Demo.review Demo.draft in
  WORKFLOWS_ENABLE_STATE_HISTORY host = false
  ∧ history (world_of (do_transition Demo.cfg host Demo.doc
                         (TransitionInstance Demo.publish) Demo.alice w)) = history w
  ∧ get_state Demo.doc (world_of (do_transition Demo.cfg host Demo.doc
                                    (TransitionInstance Demo.publish) Demo.alice w))
    = Ok (Some Demo.published)
        (world_of (do_transition Demo.cfg host Demo.doc
                     (TransitionInstance Demo.publish) Demo.alice w)).
Proof.
  split; [reflexivity|]. split; [|reflexivity].
  apply (history_off_writes_nothing Demo.cfg (without_history Demo.plain)
           (Demo.bound Demo.doc Demo.review Demo.draft) eq_refl).
Defined.

(** X3. Changing an object's state never changes which workflow anything
    has: [set_state] and [do_transition] leave both binding tables, the
    object-level and the content-type-level one, exactly as they were,
    whether they return or raise. *)
Theorem state_changes_keep_bindings (cfg : Config) (host : Host) (w : World) :
  (∀ obj state,
     let w' := world_of (set_state cfg host obj state w) in
     wors w' = wors w ∧ wmrs w' = wmrs w)
  ∧ (∀ obj transition user,
       let w' := world_of (do_transition cfg host obj transition user w) in
       wors w' = wors w ∧ wmrs w' = wmrs w).
Proof.
  assert (∀ A (c : M A),
            preserves (λ w', wors w' = wors w ∧ wmrs w' = wmrs w) c →
            wors (world_of (c w)) = wors w ∧ wmrs (world_of (c w)) = wmrs w) as Hrun
    by (intros A c Hc; by apply Hc).
  split; intros; apply Hrun; unfold_engine; preserve_by ltac:(simpl; done).
Qed.

(** X4. Operations on one object leave every other object's state rows
    and grants alone: after [set_state], [do_transition], or [set_workflow]
    and [remove_workflow] on the object itself, any other object has the
    rows and the grants it had, whether the operation returned or raised. *)
Theorem other_objects_untouched (cfg : Config) (host : Host) (obj : Entity) (w : World) :
  let same := λ w', ∀ e : Entity, e ≠ obj →
                sor_filter e (sors w') = sor_filter e (sors w)
                ∧ ∀ r p : nat, (e, r, p) ∈ grants w' ↔ (e, r, p) ∈ grants w in
  (∀ state, same (world_of (set_state cfg host obj state w)))
  ∧ (∀ transition user, same (world_of (do_transition cfg host obj transition user w)))
  ∧ (∀ wf, same (world_of (set_workflow cfg host (OfObject obj) wf w)))
  ∧ same (world_of (remove_workflow cfg host (OfObject obj) w)).
Proof.
  cbv zeta.
  assert (∀ A (c : M A),
    preserves (λ w', ∀ e : Entity, e ≠ obj →
                 sor_filter e (sors w') = sor_filter e (sors w)
                 ∧ ∀ r p : nat, (e, r, p) ∈ grants w' ↔ (e, r, p) ∈ grants w) c →
    ∀ e : Entity, e ≠ obj →
      sor_filter e (sors (world_of (c w))) = sor_filter e (sors w)
      ∧ ∀ r p : nat, (e, r, p) ∈ grants (world_of (c w)) ↔ (e, r, p) ∈ grants w) as Hrun
    by (intros A c Hc; by apply Hc).
  split; [|split; [|split]]; intros; apply Hrun; try done; unfold_engine;
    preserve_by ltac:(
      let e := fresh "e" in let He := fresh "He" in
      intros e He;
      let Hs := fresh "Hs" in let Hg := fresh "Hg" in
      match goal with H : ∀ e : Entity, _ |- _ => destruct (H e He) as [Hs Hg] end;
      simpl; split;
      [ first [ done
              | by rewrite sor_filter_save, decide_False
              | unfold sor_filter in *; rewrite filter_app, filter_cons, decide_False
                  by (simpl; congruence); by rewrite filter_nil, app_nil_r ]
      | intros r p;
        first [ done
              | rewrite elem_of_remove_permission, Hg; tauto
              | unfold grant_permission;
                rewrite elem_of_union, elem_of_singleton, Hg; intuition congruence
              | rewrite elem_of_reset, Hg; tauto ] ]).
Qed.

(** ** More on the state-change protocol *)

(** X5. [set_state] does not short-circuit: setting an object to the state
    it is already in saves the object's row again with that state (no row
    is added or removed, and the state read afterwards is the same), and
    still sends [before_state_change] and [after_state_change] (from the
    state to itself), appends a history entry when the history is on, and
    recomputes the object's permissions. *)
Theorem set_state_to_current_state (cfg : Config) (host : Host) (obj : Entity)
    (s : nat) (w : World) :
  get_state obj w = Ok (Some s) w →
  let w' := world_of (set_state cfg host obj (StateInstance s) w) in
  set_state cfg host obj (StateInstance s) w = Ok tt w'
  ∧ sors w' = sor_save obj s (sors w)
  ∧ sor_content <$> sors w' = sor_content <$> sors w
  ∧ get_state obj w' = Ok (Some s) w'
  ∧ sent w' = sent w ++ [before_state_change obj (Some s) (Some s);
                         after_state_change obj (Some s) (Some s)]
  ∧ history w' = (if WORKFLOWS_ENABLE_STATE_HISTORY host
                  then history w ++ [{| soh_content := obj; soh_state := s |}]
                  else history w)
  ∧ grants w' = recomputed cfg obj (workflow_of w obj) (Some s) (grants w).
Proof.
  intros Hget. cbv zeta. rewrite (set_state_instance cfg host obj s w (Some s) Hget).
  simpl. split; [done|]. split; [done|]. split; [apply sor_save_objects|].
  split; [|done].
  apply get_state_of_rows.
  by apply (state_changed_rows cfg host obj (Some s) s w).
Qed.

Lemma set_state_to_current_state_witness :
  let w := Demo.bound Demo.doc Demo.review Demo.published in
  let w' := world_of (set_state Demo.cfg Demo.plain Demo.doc
                        (StateInstance Demo.published) w) in
  get_state Demo.doc w = Ok (Some Demo.published) w
  ∧ get_state Demo.doc w' = Ok (Some Demo.published) w'
  ∧ sent w'
    = sent w ++ [before_state_change Demo.doc (Some Demo.published) (Some Demo.published);
                 after_state_change Demo.doc (Some Demo.published) (Some Demo.published)].
Proof.
  cbv zeta. split; [reflexivity|].
  pose proof (set_state_to_current_state Demo.cfg Demo.plain Demo.doc Demo.published
                (Demo.bound Demo.doc Demo.review Demo.published) eq_refl) as H.
  cbv zeta in H. destruct H as (_ & _ & _ & Hstate & Hsent & _). split; assumption.
Defined.

(** X6. [set_state] given a codename.  An unknown codename raises
    DoesNotExist before any hook is sent or anything is written.  A known
    one, for an object whose state can be read, moves the object to the
    State that the codename names: the call returns, [get_state] answers
    that State, and the two state-change hooks have been sent for it. *)
Theorem set_state_by_codename (cfg : Config) (host : Host) (obj : Entity)
    (codename : string) (w : World) (from : option nat) :
  get_state obj w = Ok from w →
  match state_by_codename cfg codename with
  | None => set_state cfg host obj (StateCodename codename) w = Raised DoesNotExist w
  | Some s =>
      let w' := world_of (set_state cfg host obj (StateCodename codename) w) in
      set_state cfg host obj (StateCodename codename) w = Ok tt w'
      ∧ get_state obj w' = Ok (Some s) w'
      ∧ sent w' = sent w ++ [before_state_change obj from (Some s);
                             after_state_change obj from (Some s)]
  end.
Proof.
  intros Hget.
  destruct (state_by_codename cfg codename) as [s|] eqn:Hc.
  - assert (set_state cfg host obj (StateCodename codename) w
            = set_state cfg host obj (StateInstance s) w) as ->
      by (unfold set_state; by rewrite Hc).
    cbv zeta. rewrite (set_state_instance cfg host obj s w from Hget). simpl.
    split; [done|]. split; [|done].
    apply get_state_of_rows. by apply state_changed_rows.
  - unfold set_state. by rewrite Hc.
Qed.

Lemma set_state_by_codename_witness :
  let w := Demo.bound Demo.doc Demo.review Demo.draft in
  let w' := world_of (set_state Demo.cfg Demo.plain Demo.doc
                        (StateCodename "published") w) in
  get_state Demo.doc w = Ok (Some Demo.draft) w
  ∧ set_state Demo.cfg Demo.plain Demo.doc (StateCodename "published") w = Ok tt w'
  ∧ get_state Demo.doc w' = Ok (Some Demo.published) w'.
Proof.
  cbv zeta. split; [reflexivity|].
  pose proof (set_state_by_codename Demo.cfg Demo.plain Demo.doc "published"
                (Demo.bound Demo.doc Demo.review Demo.draft) (Some Demo.draft)
                eq_refl) as H.
  cbv zeta in H. destruct H as (Hrun & Hstate & _). split; assumption.
Defined.

(** X7. Nothing repairs a duplicated state, and nothing is written on it.
    When the table holds more than one row for an object, reading its
    state, recomputing its permissions and listing its allowed transitions
    raise MultipleObjectsReturned.  [set_state] raises it too, for a State
    instance, for None and for a known codename, before any hook is sent;
    an unknown codename is met first and raises DoesNotExist.
    [do_transition] raises MultipleObjectsReturned for a Transition
    instance and for a known codename; an unknown codename is met first and
    gives False.  In every one of these cases the world is left exactly as
    it was. *)
Theorem duplicated_rows_raise (cfg : Config) (host : Host) (obj : Entity)
    (user : nat) (w : World) :
  1 < length (sor_filter obj (sors w)) →
  get_state obj w = Raised MultipleObjectsReturned w
  ∧ (∀ state,
       set_state cfg host obj state w
       = Raised (match state with
                 | StateCodename codename =>
                     match state_by_codename cfg codename with
                     | Some _ => MultipleObjectsReturned
                     | None => DoesNotExist
                     end
                 | _ => MultipleObjectsReturned
                 end) w)
  ∧ update_permissions cfg obj w = Raised MultipleObjectsReturned w
  ∧ get_allowed_transitions cfg host obj user w = Raised MultipleObjectsReturned w
  ∧ (∀ transition,
       do_transition cfg host obj transition user w
       = match resolve_transition cfg transition with
         | Some _ => Raised MultipleObjectsReturned w
         | None => Ok false w
         end).
Proof.
  intros Hlen.
  assert (objects_get (sor_filter obj (sors w)) = Several) as Hrows.
  { destruct (sor_filter obj (sors w)) as [|r [|r' rest]]; simpl in *; [lia..|done]. }
  assert (get_state obj w = Raised MultipleObjectsReturned w) as Hget
    by (by rewrite get_state_run, Hrows).
  split; [done|]. split; [|split; [|split]].
  - intros state. unfold set_state.
    destruct state as [s|codename|]; [| |];
      try destruct (state_by_codename cfg codename); run; by rewrite ?Hrows.
  - by rewrite update_permissions_run, Hget.
  - unfold get_allowed_transitions, bind. by rewrite Hget.
  - intros transition. unfold do_transition.
    destruct (resolve_transition cfg transition) as [t|]; [|done].
    unfold get_allowed_transitions, bind. by rewrite Hget.
Qed.

Lemma duplicated_rows_raise_witness :
  let w := with_sors (λ rows, rows ++ [{| sor_content := Demo.doc; sor_state := Demo.draft |}])
             (Demo.bound Demo.doc Demo.review Demo.published) in
  1 < length (sor_filter Demo.doc (sors w))
  ∧ get_allowed_transitions Demo.cfg Demo.plain Demo.doc Demo.alice w
    = Raised MultipleObjectsReturned w
  ∧ do_transition Demo.cfg Demo.plain Demo.doc (TransitionCodename "publish") Demo.alice w
    = Raised MultipleObjectsReturned w
  ∧ do_transition Demo.cfg Demo.plain Demo.doc (TransitionCodename "archive") Demo.alice w
    = Ok false w
  ∧ set_state Demo.cfg Demo.plain Demo.doc (StateCodename "archived") w
    = Raised DoesNotExist w.
Proof.
  cbv zeta.
  set (w := with_sors (λ rows, rows ++ [{| sor_content := Demo.doc; sor_state := Demo.draft |}])
              (Demo.bound Demo.doc Demo.review Demo.published)).
  assert (1 < length (sor_filter Demo.doc (sors w))) as Hlen by (vm_compute; lia).
  split; [exact Hlen|].
  destruct (duplicated_rows_raise Demo.cfg Demo.plain Demo.doc Demo.alice w Hlen)
    as (_ & Hset & _ & Hallowed & Hdo).
  split; [exact Hallowed|]. split; [exact (Hdo (TransitionCodename "publish"))|].
  split; [exact (Hdo (TransitionCodename "archive"))|].
  exact (Hset (StateCodename "archived")).
Defined.

(** ** More on transitions *)

(** X8. Applying an allowed transition whose destination differs from the
    current state: [do_transition] returns True, the object is in the
    destination, and the hooks have been sent in the order
    [before_transition], [before_state_change], [after_state_change],
    [after_transition]; one history entry is appended when the history is
    on, and the grants are the recomputation for the destination state. *)
Theorem do_transition_moves (cfg : Config) (host : Host) (obj : Entity)
    (transition : TransitionArg) (user : nat) (w : World) (t : Transition)
    (l : list Transition) (from : option nat) (destination : nat) :
  resolve_transition cfg transition = Some t →
  get_state obj w = Ok from w →
  get_allowed_transitions cfg host obj user w = Ok l w →
  transition_in t l = true →
  t_destination t = Some destination →
  Some destination ≠ from →
  let w' := world_of (do_transition cfg host obj transition user w) in
  do_transition cfg host obj transition user w = Ok true w'
  ∧ get_state obj w' = Ok (Some destination) w'
  ∧ sent w' = sent w ++ [before_transition obj from t user;
                         before_state_change obj from (Some destination);
                         after_state_change obj from (Some destination);
                         after_transition obj from t user]
  ∧ history w' = (if WORKFLOWS_ENABLE_STATE_HISTORY host
                  then history w ++ [{| soh_content := obj; soh_state := destination |}]
                  else history w)
  ∧ grants w' = recomputed cfg obj (workflow_of w obj) (Some destination) (grants w).
Proof.
  intros Hres Hget Hl Hin Hdest Hne.
  set (w1 := with_sent (λ s, s ++ [before_transition obj from t user]) w).
  assert (get_state obj w1 = Ok from w1) as Hget1
    by (by apply (get_state_same_rows obj w)).
  assert (do_transition cfg host obj transition user w
          = Ok true (with_sent (λ s, s ++ [after_transition obj from t user])
                       (state_changed cfg host obj from destination w1))) as Hrun.
  { unfold do_transition. rewrite Hres. unfold bind at 1. rewrite Hl, Hin.
    unfold bind at 1. rewrite Hget. unfold bind at 1. unfold send at 1.
    unfold update at 1. cbv beta iota. rewrite Hdest.
    rewrite decide_True by done. unfold bind at 1. fold w1.
    by rewrite (set_state_instance cfg host obj destination w1 from Hget1). }
  cbv zeta. rewrite Hrun. simpl. split; [done|]. split; [|split; [|done]].
  - apply (get_state_same_rows obj (state_changed cfg host obj from destination w1));
      [done|].
    apply get_state_of_rows. by apply state_changed_rows.
  - rewrite <- !(assoc_L (++)). done.
Qed.

Lemma do_transition_moves_witness :
  let w := Demo.bound Demo.doc Demo.review Demo.draft in
  let w' := world_of (do_transition Demo.cfg Demo.plain Demo.doc
                        (TransitionCodename "publish") Demo.alice w) in
  get_allowed_transitions Demo.cfg Demo.plain Demo.doc Demo.alice w
  = Ok [Demo.publish; Demo.comment] w
  ∧ do_transition Demo.cfg Demo.plain Demo.doc (TransitionCodename "publish") Demo.alice w
    = Ok true w'
  ∧ get_state Demo.doc w' = Ok (Some Demo.published) w'.
Proof.
  cbv zeta. split; [reflexivity|].
  assert (Some Demo.published ≠ Some Demo.draft) as Hne by discriminate.
  pose proof (do_transition_moves Demo.cfg Demo.plain Demo.doc
                (TransitionCodename "publish") Demo.alice
                (Demo.bound Demo.doc Demo.review Demo.draft)
                Demo.publish [Demo.publish; Demo.comment] (Some Demo.draft) Demo.published
                eq_refl eq_refl eq_refl eq_refl eq_refl Hne) as H.
  cbv zeta in H. destruct H as (Hrun & Hstate & _). split; assumption.
Defined.

Lemma bind_not_false {A} (c : M A) (k : A → M bool) w w' :
  (∀ a w1, k a w1 ≠ Ok false w') → bind c k w ≠ Ok false w'.
Proof. intros Hk. unfold bind. destruct (c w) as [a w1|e w1]; [apply Hk|done]. Qed.

(** X9. What [do_transition]'s result tells the caller.  If it returns
    False, nothing was written and no hook was sent.  If it returns True,
    the argument named a transition and that transition was among the
    allowed transitions of the object for the user. *)
Theorem do_transition_result (cfg : Config) (host : Host) (obj : Entity)
    (transition : TransitionArg) (user : nat) (w w' : World) (applied : bool) :
  do_transition cfg host obj transition user w = Ok applied w' →
  if applied
  then ∃ t l, resolve_transition cfg transition = Some t
              ∧ get_allowed_transitions cfg host obj user w = Ok l w
              ∧ transition_in t l = true
  else w' = w.
Proof.
  unfold do_transition.
  destruct (resolve_transition cfg transition) as [t|]; [|by intros [= <- <-]].
  unfold bind at 1.
  destruct (get_allowed_transitions cfg host obj user w) as [l w1|e w1] eqn:Hl; [|done].
  pose proof (get_allowed_transitions_inv _ _ _ _ _ _ _ Hl) as [-> _].
  destruct (transition_in t l) eqn:Hin; [|by intros [= <- <-]].
  destruct applied; [by eauto|].
  intros Hrun. exfalso. revert Hrun.
  apply bind_not_false. intros from w1.
  apply bind_not_false. intros [] w2.
  apply bind_not_false. intros [] w3.
  apply bind_not_false. intros [] w4. done.
Qed.

Lemma do_transition_result_witness :
  let w := Demo.bound Demo.doc Demo.review Demo.draft in
  ∃ t l, resolve_transition Demo.cfg (TransitionCodename "publish") = Some t
         ∧ get_allowed_transitions Demo.cfg Demo.plain Demo.doc Demo.alice w = Ok l w
         ∧ transition_in t l = true.
Proof.
  apply (do_transition_result Demo.cfg Demo.plain Demo.doc
           (TransitionCodename "publish") Demo.alice
           (Demo.bound Demo.doc Demo.review Demo.draft)
           (world_of (do_transition Demo.cfg Demo.plain Demo.doc
                        (TransitionCodename "publish") Demo.alice
                        (Demo.bound Demo.doc Demo.review Demo.draft)))
           true).
  reflexivity.
Defined.

(** X10. An object without a state row has no allowed transitions, and
    every [do_transition] on it is refused with nothing written, whatever
    the argument; neither the object's own permission check nor the default
    one nor any guard is consulted, so none of their errors can surface. *)
Theorem stateless_object_has_no_transitions (cfg : Config) (host : Host)
    (obj : Entity) (user : nat) (w : World) :
  get_state obj w = Ok None w →
  get_allowed_transitions cfg host obj user w = Ok [] w
  ∧ ∀ transition, do_transition cfg host obj transition user w = Ok false w.
Proof.
  intros Hget.
  assert (get_allowed_transitions cfg host obj user w = Ok [] w) as Hl
    by (unfold get_allowed_transitions, bind; by rewrite Hget).
  split; [done|]. intros transition. unfold do_transition.
  destruct (resolve_transition cfg transition) as [t|]; [|done].
  unfold bind. by rewrite Hl.
Qed.

Lemma stateless_object_has_no_transitions_witness :
  let host := Demo.host PkCoercion (Some (CallRaises (HostError 7))) true
                (EvalRaises (HostError 8)) in
  get_state Demo.doc Demo.empty_world = Ok None Demo.empty_world
  ∧ get_allowed_transitions Demo.cfg host Demo.doc Demo.alice Demo.empty_world
    = Ok [] Demo.empty_world.
Proof.
  split; [reflexivity|].
  apply (stateless_object_has_no_transitions Demo.cfg
           (Demo.host PkCoercion (Some (CallRaises (HostError 7))) true
              (EvalRaises (HostError 8)))
           Demo.doc Demo.alice Demo.empty_world eq_refl).
Defined.

Lemma allowed_loop_returns host g obj user todo acc :
  (∀ t, t ∈ todo → ∃ b, transition_allowed host g obj user t = inr b) →
  allowed_loop host g obj user todo acc
  = inr (acc ++ filter (λ t, transition_allowed host g obj user t = inr true) todo).
Proof.
  revert acc. induction todo as [|t todo IH]; intros acc Hall; simpl.
  - by rewrite app_nil_r.
  - destruct (Hall t) as [b Hb]; [by left|]. rewrite filter_cons, Hb.
    destruct b.
    + rewrite decide_True by done. rewrite IH by (intros; apply Hall; by right).
      by rewrite <- (assoc_L (++)).
    + rewrite decide_False by done. apply IH. intros; apply Hall; by right.
Qed.

(** X11. The list that [get_allowed_transitions] returns is a selection
    from the transitions of the object's current state, in their order: it
    is a sublist of [state.transitions.all()], so it contains no transition
    of another state and repeats none that the state does not repeat.
    Computing it writes nothing. *)
Theorem allowed_transitions_in_store_order (cfg : Config) (host : Host)
    (obj : Entity) (user : nat) (w w' : World) (l : list Transition) :
  get_allowed_transitions cfg host obj user w = Ok l w' →
  w' = w
  ∧ match get_state obj w with
    | Ok (Some state) _ =>
        l `sublist_of` transitions_all cfg state
        ∧ (NoDup (transitions_all cfg state) → NoDup l)
    | _ => l = []
    end.
Proof.
  intros [-> Hl]%get_allowed_transitions_inv. split; [done|].
  destruct (get_state obj w) as [[state|] w0|e w0]; [|done..].
  apply allowed_loop_inr in Hl as [-> _]. simpl.
  split; [apply sublist_filter|]. intros Hnd. by apply NoDup_filter.
Qed.

Lemma allowed_transitions_in_store_order_witness :
  let w := Demo.bound Demo.doc Demo.review Demo.draft in
  let host := Demo.host PkCoercion None false (Value true) in
  get_allowed_transitions Demo.cfg host Demo.doc Demo.alice w = Ok [Demo.comment] w
  ∧ [Demo.comment] `sublist_of` transitions_all Demo.cfg Demo.draft.
Proof.
  cbv zeta. split; [reflexivity|].
  pose proof (allowed_transitions_in_store_order Demo.cfg
                (Demo.host PkCoercion None false (Value true)) Demo.doc Demo.alice
                (Demo.bound Demo.doc Demo.review Demo.draft)
                (Demo.bound Demo.doc Demo.review Demo.draft)
                [Demo.comment] eq_refl) as [_ H].
  exact (proj1 H).
Defined.

(** X12. When the allowed transitions are computed without an error.  If
    the object's state can be read and, for every transition of that state
    that requires a permission, the object's own check returns a verdict or
    raises AttributeError, then [get_allowed_transitions] returns, and its
    result is the state's transitions filtered by the loop's test, nothing
    else.  In particular it always returns when no transition of the state
    requires a permission. *)
Theorem allowed_transitions_return (cfg : Config) (host : Host) (obj : Entity)
    (user : nat) (w : World) (state : nat) :
  get_state obj w = Ok (Some state) w →
  (∀ t p, t ∈ transitions_all cfg state → t_permission t = Some p →
          deciding_check host (grants w) obj user p ≠ None) →
  get_allowed_transitions cfg host obj user w
  = Ok (filter (λ t, transition_allowed host (grants w) obj user t = inr true)
          (transitions_all cfg state)) w.
Proof.
  intros Hget Hchecks.
  unfold get_allowed_transitions, State_get_allowed_transitions, bind.
  rewrite Hget. unfold reading. cbv beta iota.
  rewrite allowed_loop_returns; [done|].
  intros t Hin. unfold transition_allowed.
  destruct (t_permission t) as [p|] eqn:Hp; [|by eauto].
  specialize (Hchecks t p Hin Hp). unfold deciding_check in Hchecks.
  destruct (call_obj_has_permission host obj user p) as [b|[]]; by eauto.
Qed.

Lemma allowed_transitions_return_witness :
  let w := Demo.bound Demo.doc Demo.review Demo.published in
  let host := Demo.host PkCoercion (Some (CallRaises (HostError 7))) true (Value true) in
  get_state Demo.doc w = Ok (Some Demo.published) w
  ∧ get_allowed_transitions Demo.cfg host Demo.doc Demo.alice w
    = Ok (filter (λ t, transition_allowed host (grants w) Demo.doc Demo.alice t = inr true)
            (transitions_all Demo.cfg Demo.published)) w.
Proof.
  cbv zeta. split; [reflexivity|].
  apply (allowed_transitions_return Demo.cfg
           (Demo.host PkCoercion (Some (CallRaises (HostError 7))) true (Value true))
           Demo.doc Demo.alice (Demo.bound Demo.doc Demo.review Demo.published)
           Demo.published eq_refl).
  intros t p Hin Hp. vm_compute in Hin.
  apply list_elem_of_singleton in Hin. subst t. discriminate Hp.
Defined.

(** ** More on assigning and removing workflows *)

(** X13. Assigning a workflow to a content type writes the content type's
    binding and nothing else: no state row, grant, history entry or signal
    changes.  Afterwards the content type resolves the workflow; an object
    of that type resolves its own workflow if it has one and the new one
    otherwise; objects of other types resolve what they did before. *)
Theorem set_workflow_on_type (cfg : Config) (host : Host) (ctype wf : nat) (w : World) :
  let w' := world_of (set_workflow cfg host (OfType ctype) wf w) in
  set_workflow cfg host (OfType ctype) wf w = Ok tt w'
  ∧ get_workflow_for_model ctype w' = Ok (Some wf) w'
  ∧ (∀ obj, content_type obj = ctype →
       get_workflow obj w'
       = Ok (match wors w !! obj with Some own => Some own | None => Some wf end) w')
  ∧ (∀ obj, content_type obj ≠ ctype → get_workflow obj w' = Ok (workflow_of w obj) w')
  ∧ wors w' = wors w ∧ sors w' = sors w ∧ grants w' = grants w
  ∧ history w' = history w ∧ sent w' = sent w.
Proof.
  cbv zeta. simpl. split; [done|]. split; [|split; [|split; [|done]]].
  - unfold get_workflow_for_model. run. by rewrite lookup_insert_eq.
  - intros obj <-. rewrite get_workflow_run. unfold workflow_of. simpl.
    by rewrite lookup_insert_eq.
  - intros obj Hne. rewrite get_workflow_run. unfold workflow_of. simpl.
    by rewrite lookup_insert_ne.
Qed.

(** X14. [set_to_object] on a workflow without an explicit initial state
    fails half-way and undoes nothing.  If the object does not already have
    the workflow, the call raises at the refused write of None; by then the
    object-level binding has been written and [before_state_change] (to
    None) has been sent, while the state rows, the history and the grants
    are as before and [after_state_change] is never sent. *)
Theorem set_to_object_without_initial_state (cfg : Config) (host : Host)
    (self : nat) (obj : Entity) (w : World) (from : option nat) :
  get_state obj w = Ok from w →
  initial_state cfg self = None →
  wors w !! obj ≠ Some self →
  Workflow_set_to_object cfg host self obj w
  = Raised NullState
      (with_sent (λ l, l ++ [before_state_change obj from None])
         (with_wors (<[obj := self]>) w)).
Proof.
  intros Hget Hinit Hne. unfold Workflow_set_to_object. rewrite Hinit. simpl.
  unfold bind at 1. unfold reading at 1. cbv beta iota.
  assert (get_state obj (with_wors (<[obj := self]>) w)
          = Ok from (with_wors (<[obj := self]>) w)) as Hget'
    by (by apply (get_state_same_rows obj w)).
  destruct (wors w !! obj) as [wf|] eqn:Ewor.
  - rewrite decide_True by congruence.
    unfold bind, update. cbv beta iota. by apply set_state_none.
  - unfold bind, update. cbv beta iota. by apply set_state_none.
Qed.

Lemma set_to_object_without_initial_state_witness :
  let w := Demo.bound Demo.doc Demo.review Demo.published in
  get_state Demo.doc w = Ok (Some Demo.published) w
  ∧ initial_state Demo.cfg Demo.tickets = None
  ∧ wors w !! Demo.doc ≠ Some Demo.tickets
  ∧ Workflow_set_to_object Demo.cfg Demo.plain Demo.tickets Demo.doc w
    = Raised NullState
        (with_sent (λ l, l ++ [before_state_change Demo.doc (Some Demo.published) None])
           (with_wors (<[Demo.doc := Demo.tickets]>) w)).
Proof.
  cbv zeta.
  assert (wors (Demo.bound Demo.doc Demo.review Demo.published) !! Demo.doc
          ≠ Some Demo.tickets) as Hne by (vm_compute; discriminate).
  split; [reflexivity|]. split; [reflexivity|]. split; [exact Hne|].
  apply (set_to_object_without_initial_state Demo.cfg Demo.plain Demo.tickets Demo.doc
           (Demo.bound Demo.doc Demo.review Demo.published) (Some Demo.published)
           eq_refl eq_refl Hne).
Defined.

(** X15. [set_initial_state], unlike [set_to_object], uses the fallback of
    [get_initial_state].  For an object that resolves a workflow without an
    explicit initial state: if the workflow has states, the object is moved
    to the first of them through the state-change protocol; if it has none,
    the call raises at the refused write of None, after
    [before_state_change] has been sent.  An object that resolves no
    workflow is left alone. *)
Theorem set_initial_state_falls_back (cfg : Config) (host : Host) (obj : Entity)
    (w : World) (from : option nat) :
  get_state obj w = Ok from w →
  match workflow_of w obj with
  | None => set_initial_state cfg host obj w = Ok tt w
  | Some wf =>
      initial_state cfg wf = None →
      match states_all cfg wf with
      | first :: _ =>
          let w' := world_of (set_initial_state cfg host obj w) in
          set_initial_state cfg host obj w = Ok tt w'
          ∧ get_state obj w' = Ok (Some first) w'
          ∧ sent w' = sent w ++ [before_state_change obj from (Some first);
                                 after_state_change obj from (Some first)]
      | [] =>
          set_initial_state cfg host obj w
          = Raised NullState
              (with_sent (λ l, l ++ [before_state_change obj from None]) w)
      end
  end.
Proof.
  intros Hget. rewrite (set_initial_state_run cfg host obj w from Hget).
  destruct (workflow_of w obj) as [wf|]; [|done].
  intros Hinit. unfold Workflow_get_initial_state. rewrite Hinit.
  destruct (states_all cfg wf) as [|first rest]; simpl; [done|].
  split; [done|]. split; [|done].
  apply get_state_of_rows. by apply state_changed_rows.
Qed.

Lemma set_initial_state_falls_back_witness :
  let w := Demo.bound Demo.doc Demo.tickets Demo.draft in
  let w' := world_of (set_initial_state Demo.cfg Demo.plain Demo.doc w) in
  get_state Demo.doc w = Ok (Some Demo.draft) w
  ∧ initial_state Demo.cfg Demo.tickets = None
  ∧ get_state Demo.doc w' = Ok (Some Demo.opened) w'.
Proof.
  cbv zeta. split; [reflexivity|]. split; [reflexivity|].
  pose proof (set_initial_state_falls_back Demo.cfg Demo.plain Demo.doc
                (Demo.bound Demo.doc Demo.tickets Demo.draft) (Some Demo.draft)
                eq_refl) as H.
  apply (H eq_refl).
Defined.

(** ** Objects of a workflow, and removing a content type's workflow *)

Lemma for_each_reads {A B} (l : list A) (body : B → A → M B) (f : B → A → B)
    (acc : B) (w : World) :
  (∀ acc x, body acc x w = Ok (f acc x) w) →
  for_each l body acc w = Ok (foldl f acc l) w.
Proof.
  intros Hbody. revert acc. induction l as [|x l IH]; intros acc; simpl; [done|].
  unfold bind. by rewrite Hbody, IH.
Qed.

Lemma keys_with_value `{Countable K} (m : gmap K nat) (v : nat) (k : K) :
  k ∈ (map_to_list (filter (λ kv, kv.2 = v) m)).*1 ↔ m !! k = Some v.
Proof.
  rewrite list_elem_of_fmap. split.
  - intros ([k' x] & -> & Hin). apply elem_of_map_to_list in Hin.
    apply map_lookup_filter_Some in Hin as [Hin Hv]. simpl in *. by subst.
  - intros Hk. exists (k, v). split; [done|]. apply elem_of_map_to_list.
    by apply map_lookup_filter_Some.
Qed.

Lemma elem_of_foldl_keep {A} (P : A → Prop) `{∀ y, Decision (P y)} (l acc : list A) (x : A) :
  x ∈ foldl (λ acc y, if decide (P y) then acc ++ [y] else acc) acc l
  ↔ x ∈ acc ∨ (x ∈ l ∧ P x).
Proof.
  revert acc. induction l as [|y l IH]; intros acc; simpl.
  - rewrite elem_of_nil. tauto.
  - rewrite IH, elem_of_cons. case_decide as Hy.
    + rewrite elem_of_app, list_elem_of_singleton. intuition congruence.
    + intuition congruence.
Qed.

Lemma elem_of_foldl_new {A} `{EqDecision A} (l acc : list A) (x : A) :
  x ∈ foldl (λ acc y, if decide (y ∈ acc) then acc else acc ++ [y]) acc l
  ↔ x ∈ acc ∨ x ∈ l.
Proof.
  revert acc. induction l as [|y l IH]; intros acc; simpl.
  - rewrite elem_of_nil. tauto.
  - rewrite IH, elem_of_cons. case_decide as Hy.
    + intuition congruence.
    + rewrite elem_of_app, list_elem_of_singleton. tauto.
Qed.

Lemma elem_of_foldl_nested {A C} (P : A → Prop) `{∀ y, Decision (P y)}
    (F : C → list A) (cts : list C) (acc : list A) (x : A) :
  x ∈ foldl (λ acc ct,
               foldl (λ acc y, if decide (P y) then acc ++ [y] else acc) acc (F ct))
        acc cts
  ↔ x ∈ acc ∨ ∃ ct, ct ∈ cts ∧ x ∈ F ct ∧ P x.
Proof.
  revert acc. induction cts as [|ct cts IH]; intros acc; simpl.
  - split; [by left|]. intros [?|(ct & Hin & _)]; [done|]. by apply elem_of_nil in Hin.
  - rewrite IH, elem_of_foldl_keep. split.
    + intros [[?|[? ?]]|(ct' & ? & ? & ?)]; [by left| |].
      * right. exists ct. split; [by left|done].
      * right. exists ct'. split; [by right|done].
    + intros [?|(ct' & [->|Hin]%elem_of_cons & ? & ?)]; [by left; left|by left; right|].
      right. by exists ct'.
Qed.

Lemma Workflow_get_objects_run (host : Host) (self : nat) (w : World) :
  ∃ objs, Workflow_get_objects host self w = Ok objs w
          ∧ ∀ x : Entity, x ∈ objs ↔
              (∃ ct, wmrs w !! ct = Some self ∧ x ∈ model_objects host ct
                     ∧ workflow_of w x = Some self)
              ∨ wors w !! x = Some self.
Proof.
  eexists. split.
  - unfold Workflow_get_objects. unfold bind at 1. unfold reading at 1. cbv beta iota.
    unfold bind at 1.
    rewrite (for_each_reads _ _
               (λ objs ctype,
                  foldl (λ objs obj,
                           if decide (workflow_of w obj = Some self)
                           then objs ++ [obj] else objs)
                    objs (model_objects host ctype))).
    2: { intros acc ctype. apply for_each_reads. intros acc' obj.
         unfold bind. by rewrite get_workflow_run. }
    unfold bind at 1. unfold reading at 1. cbv beta iota.
    apply (for_each_reads _ _
             (λ objs content, if decide (content ∈ objs) then objs else objs ++ [content])).
    done.
  - intros x. rewrite elem_of_foldl_new, keys_with_value.
    rewrite (elem_of_foldl_nested (λ obj, workflow_of w obj = Some self)).
    rewrite elem_of_nil. setoid_rewrite keys_with_value. tauto.
Qed.

(** X16. [Workflow.get_objects] only reads, always returns, and returns
    exactly these objects: those listed for a content type that is bound to
    the workflow and that resolve the workflow themselves, and those bound
    to the workflow by an object-level relation.  Every returned object
    resolves the workflow; an object of a bound content type that has
    another workflow of its own is left out. *)
Theorem get_objects_members (host : Host) (self : nat) (w : World) :
  ∃ objs,
    Workflow_get_objects host self w = Ok objs w
    ∧ (∀ x : Entity, x ∈ objs ↔
         (∃ ct, wmrs w !! ct = Some self ∧ x ∈ model_objects host ct
                ∧ workflow_of w x = Some self)
         ∨ wors w !! x = Some self)
    ∧ (∀ x : Entity, x ∈ objs → get_workflow x w = Ok (Some self) w)
    ∧ (∀ (x : Entity) other, wors w !! x = Some other → other ≠ self → x ∉ objs).
Proof.
  destruct (Workflow_get_objects_run host self w) as (objs & Hrun & Hmem).
  exists objs. split; [done|]. split; [done|]. split.
  - intros x [(ct & _ & _ & Hwf)|Hown]%Hmem; rewrite get_workflow_run; [by rewrite Hwf|].
    unfold workflow_of. by rewrite Hown.
  - intros x other Hother Hne [(ct & _ & _ & Hwf)|Hown]%Hmem.
    + unfold workflow_of in Hwf. rewrite Hother in Hwf. congruence.
    + congruence.
Qed.

(** X17. Removing the workflow of a content type that has none changes
    nothing at all and raises nothing. *)
Theorem remove_workflow_from_unbound_type (cfg : Config) (host : Host)
    (ctype : nat) (w : World) :
  wmrs w !! ctype = None →
  remove_workflow cfg host (OfType ctype) w = Ok tt w.
Proof.
  intros Hnone. unfold remove_workflow, remove_workflow_from_model,
    get_workflow_for_model, get_objects_for_workflow.
  run. rewrite Hnone. simpl. unfold with_wmrs. rewrite delete_id by done.
  by destruct w.
Qed.

Lemma remove_workflow_from_unbound_type_witness :
  wmrs (Demo.bound Demo.doc Demo.review Demo.draft) !! 1 = None
  ∧ remove_workflow Demo.cfg Demo.plain (OfType 1)
      (Demo.bound Demo.doc Demo.review Demo.draft)
    = Ok tt (Demo.bound Demo.doc Demo.review Demo.draft).
Proof.
  split; [reflexivity|].
  apply (remove_workflow_from_unbound_type Demo.cfg Demo.plain 1
           (Demo.bound Demo.doc Demo.review Demo.draft) eq_refl).
Defined.

Lemma one_state_binding_readable obj w :
  one_state_binding w → ∃ from, get_state obj w = Ok from w.
Proof.
  intros Hw. rewrite get_state_run.
  destruct (sor_filter obj (sors w)) as [|r [|r' rest]] eqn:Erows; simpl; eauto.
  exfalso. unfold one_state_binding in Hw.
  assert (NoDup (sor_content <$> sor_filter obj (sors w))) as Hnd.
  { eapply sublist_NoDup; [exact Hw|]. apply fmap_sublist, sublist_filter. }
  assert (∀ x, x ∈ sor_filter obj (sors w) → sor_content x = obj) as Hall.
  { intros x Hx. by apply list_elem_of_filter in Hx as [? _]. }
  rewrite Erows in Hnd, Hall. simpl in Hnd.
  rewrite (Hall r), (Hall r') in Hnd
    by (repeat first [apply list_elem_of_here | apply list_elem_of_further]).
  apply NoDup_cons in Hnd as [Hnd _]. apply Hnd, list_elem_of_here.
Qed.

Lemma sor_filter_delete (obj e : Entity) rows :
  sor_filter e (sor_delete obj rows)
  = if decide (e = obj) then [] else sor_filter e rows.
Proof.
  unfold sor_filter, sor_delete. induction rows as [|r rows IH]; simpl.
  - by case_decide.
  - rewrite !filter_cons. destruct (decide (sor_content r ≠ obj)) as [Hr|Hr].
    + rewrite filter_cons, IH.
      destruct (decide (e = obj)) as [->|He]; [by rewrite decide_False|done].
    + apply dec_stable in Hr. rewrite IH.
      destruct (decide (e = obj)) as [->|He]; [done|].
      by rewrite decide_False by congruence.
Qed.

(** The loop of [remove_workflow_from_model], from a world with one row per
    object: it returns, and it has emptied the state and the grants of
    exactly the listed objects of the content type. *)
Lemma detach_loop (ctype : nat) (objs : list Entity) (w : World) :
  one_state_binding w →
  ∃ w',
    for_each objs
      (λ _ obj,
         if decide (ctype ≠ content_type obj) then ret tt
         else
           rows <~ reading (λ w, sor_filter obj (sors w)) ;;
           match objects_get rows with
           | Found _ => update (with_sors (sor_delete obj))
           | NotFound => ret tt
           | Several => raise MultipleObjectsReturned
           end ;;;
           update (with_grants (reset obj)))
      tt w = Ok tt w'
    ∧ wors w' = wors w ∧ wmrs w' = wmrs w
    ∧ history w' = history w ∧ sent w' = sent w
    ∧ (∀ e : Entity,
         (e ∈ objs ∧ content_type e = ctype → sor_filter e (sors w') = [])
         ∧ (¬ (e ∈ objs ∧ content_type e = ctype) →
            sor_filter e (sors w') = sor_filter e (sors w)))
    ∧ (∀ (e : Entity) (r p : nat),
         (e, r, p) ∈ grants w'
         ↔ (e, r, p) ∈ grants w ∧ ¬ (e ∈ objs ∧ content_type e = ctype)).
Proof.
  revert w. induction objs as [|obj rest IH]; intros w Hw.
  - exists w. simpl. split; [done|]. do 4 (split; [done|]). split.
    + intros e. split; [|done]. intros [Hin _]. by apply elem_of_nil in Hin.
    + intros e r p. split; [|tauto]. intros Hin. split; [done|].
      intros [Hin' _]. by apply elem_of_nil in Hin'.
  - simpl. unfold bind at 1.
    destruct (decide (ctype ≠ content_type obj)) as [Hct|Hct].
    + destruct (IH w Hw) as (w' & Hrun & Hwo & Hwm & Hh & Hs & Hrows & Hg).
      exists w'. unfold ret at 1. cbv beta iota.
      split; [done|]. repeat (split; [done|]). split.
      * intros e. destruct (Hrows e) as [Hhit Hmiss]. split.
        -- intros [[->|Hin]%elem_of_cons Hc]; [congruence|]. by apply Hhit.
        -- intros Hn. apply Hmiss. intros [Hin Hc]. apply Hn. split; [by right|done].
      * intros e r p. rewrite Hg. split.
        -- intros [Hin Hn]. split; [done|].
           intros [[->|Hin']%elem_of_cons Hc]; [congruence|]. by apply Hn.
        -- intros [Hin Hn]. split; [done|]. intros [Hin' Hc]. apply Hn.
           split; [by right|done].
    + apply dec_stable in Hct.
      destruct (one_state_binding_readable obj w Hw) as [from Hget].
      apply get_state_rows in Hget as [_ Hfrom].
      set (w1 := with_grants (reset obj) (with_sors (sor_delete obj) w)).
      assert ((rows <~ reading (λ w, sor_filter obj (sors w)) ;;
               match objects_get rows with
               | Found _ => update (with_sors (sor_delete obj))
               | NotFound => ret tt
               | Several => raise MultipleObjectsReturned
               end ;;;
               update (with_grants (reset obj))) w = Ok tt w1) as Hstep.
      { run. rewrite Hfrom. destruct from as [s|]; simpl; [done|].
        subst w1. unfold with_grants, with_sors. simpl. do 2 f_equal.
        unfold sor_delete. symmetry.
        assert (∀ rows : list StateObjectRelation,
                  filter (λ r, sor_content r = obj) rows = [] →
                  filter (λ r, sor_content r ≠ obj) rows = rows) as Hall.
        { induction rows as [|r rows IHr]; [done|]. rewrite !filter_cons.
          destruct (decide (sor_content r = obj)); [done|].
          intros Hr. rewrite decide_True by done. by rewrite IHr. }
        by apply Hall. }
      rewrite Hstep.
      assert (one_state_binding w1) as Hw1.
      { apply (one_state_binding_other_tables (with_sors (sor_delete obj) w)); [done|].
        by apply one_state_binding_delete. }
      destruct (IH w1 Hw1) as (w' & Hrun & Hwo & Hwm & Hh & Hs & Hrows & Hg).
      exists w'. split; [done|]. repeat (split; [done|]). split.
      * intros e. destruct (Hrows e) as [Hhit Hmiss].
        assert (sor_filter e (sors w1)
                = if decide (e = obj) then [] else sor_filter e (sors w)) as Hw1rows
          by apply sor_filter_delete.
        destruct (decide (e ∈ rest ∧ content_type e = ctype)) as [Hr|Hr]; split.
        -- intros _. by apply Hhit.
        -- intros Hn. destruct Hn. split; [right|]; tauto.
        -- intros [[->|Hin]%elem_of_cons Hc]; [|tauto].
           rewrite (Hmiss Hr), Hw1rows. by rewrite decide_True.
        -- intros Hn. rewrite (Hmiss Hr), Hw1rows.
           destruct (decide (e = obj)) as [->|He]; [|done].
           destruct Hn. split; [by left|done].
      * intros e r p. rewrite Hg. subst w1. simpl. rewrite elem_of_reset. split.
        -- intros [[Hin He] Hn]. split; [done|].
           intros [[->|Hin']%elem_of_cons Hc]; [done|]. by apply Hn.
        -- intros [Hin Hn]. split; [split; [done|]|].
           ++ intros ->. apply Hn. split; [by left|done].
           ++ intros [Hin' Hc]. apply Hn. split; [by right|done].
Qed.

(** X18. Removing the workflow of a content type, from a world with one
    state row per object.  The call returns; the content type has no
    workflow afterwards; the object-level bindings, the history and the
    signals are untouched.  Every object of that content type which
    [get_objects] returns for the removed workflow, including one bound to
    the same workflow by a relation of its own, has lost its state and all
    its grants; every other object keeps its state rows and its grants. *)
Theorem remove_workflow_from_type (cfg : Config) (host : Host) (ctype wf : nat)
    (w : World) (objs : list Entity) :
  one_state_binding w →
  wmrs w !! ctype = Some wf →
  Workflow_get_objects host wf w = Ok objs w →
  ∃ w',
    remove_workflow cfg host (OfType ctype) w = Ok tt w'
    ∧ get_workflow_for_model ctype w' = Ok None w'
    ∧ wors w' = wors w ∧ history w' = history w ∧ sent w' = sent w
    ∧ (∀ e : Entity, e ∈ objs → content_type e = ctype →
         get_state e w' = Ok None w' ∧ ∀ r p : nat, (e, r, p) ∉ grants w')
    ∧ (∀ e : Entity, ¬ (e ∈ objs ∧ content_type e = ctype) →
         sor_filter e (sors w') = sor_filter e (sors w)
         ∧ ∀ r p : nat, (e, r, p) ∈ grants w' ↔ (e, r, p) ∈ grants w).
Proof.
  intros Hw Hwmr Hobjs.
  destruct (detach_loop ctype objs w Hw)
    as (w1 & Hloop & Hwo & Hwm & Hh & Hs & Hrows & Hg).
  exists (with_wmrs (delete ctype) w1). split.
  - unfold remove_workflow, remove_workflow_from_model, get_workflow_for_model,
      get_objects_for_workflow.
    unfold bind at 1. unfold reading at 1. cbv beta iota. rewrite Hwmr.
    unfold bind at 1. rewrite Hobjs. unfold bind at 1. by rewrite Hloop.
  - split; [|split; [done|split; [done|split; [done|split]]]].
    + unfold get_workflow_for_model. run. by rewrite lookup_delete_eq.
    + intros e Hin Hc. destruct (Hrows e) as [Hhit _]. split.
      * apply get_state_of_rows. simpl. by apply Hhit.
      * intros r p Hgr. simpl in Hgr. apply Hg in Hgr as [_ Hn]. by apply Hn.
    + intros e Hn. destruct (Hrows e) as [_ Hmiss]. split; [by apply Hmiss|].
      intros r p. simpl. rewrite Hg. tauto.
Qed.

Lemma remove_workflow_from_type_witness :
  let host := with_objects (λ ct, if decide (ct = 1) then [Demo.doc] else []) Demo.plain in
  let w := {| wors := ∅; wmrs := {[ 1 := Demo.review ]};
              sors := [{| sor_content := Demo.doc; sor_state := Demo.draft |}];
              history := [];
              grants := {[ (Demo.doc, Demo.editor, Demo.can_publish) ]};
              sent := [] |} in
  one_state_binding w
  ∧ wmrs w !! 1 = Some Demo.review
  ∧ Workflow_get_objects host Demo.review w = Ok [Demo.doc] w
  ∧ ∃ w', remove_workflow Demo.cfg host (OfType 1) w = Ok tt w'
          ∧ get_state Demo.doc w' = Ok None w'.
Proof.
  cbv zeta.
  set (host := with_objects (λ ct, if decide (ct = 1) then [Demo.doc] else []) Demo.plain).
  set (w := {| wors := ∅; wmrs := {[ 1 := Demo.review ]};
               sors := [{| sor_content := Demo.doc; sor_state := Demo.draft |}];
               history := [];
               grants := {[ (Demo.doc, Demo.editor, Demo.can_publish) ]};
               sent := [] |}).
  assert (one_state_binding w) as Hw
    by (apply (bool_decide_unpack _); vm_compute; exact I).
  split; [exact Hw|]. split; [reflexivity|]. split; [reflexivity|].
  destruct (remove_workflow_from_type Demo.cfg host 1 Demo.review w [Demo.doc]
              Hw eq_refl eq_refl) as (w' & Hrun & _ & _ & _ & _ & Hgone & _).
  exists w'. split; [exact Hrun|].
  apply (Hgone Demo.doc); [apply list_elem_of_here | reflexivity].
Defined.

Lemma objects_get_found {A} (l : list A) (a : A) : objects_get l = Found a → a ∈ l.
Proof.
  destruct l as [|x [|y rest]]; simpl; intros [= <-]. apply list_elem_of_here.
Qed.

(** X19. [remove_workflow] on an object whose id differs from the id of its
    content type never removes that object's own workflow binding: the
    lookup is keyed by the content type column alone and given the object,
    so either the query is refused or it looks among the bindings of the
    content type whose id is the object's id.  Whether the call returns or
    raises, the object's own binding is afterwards what it was. *)
Theorem remove_workflow_misses_own_binding (cfg : Config) (host : Host)
    (obj : Entity) (w : World) :
  content_type obj ≠ content_id obj →
  let w' := world_of (remove_workflow cfg host (OfObject obj) w) in
  wors w' !! obj = wors w !! obj
  ∧ get_workflow_for_object obj w' = Ok (wors w !! obj) w'.
Proof.
  intros Hid. cbv zeta.
  assert (wors (world_of (remove_workflow cfg host (OfObject obj) w)) !! obj
          = wors w !! obj) as Hsame.
  { unfold remove_workflow, remove_workflow_from_object, wor_get_by_instance.
    destruct (instance_lookup host); [|done].
    unfold bind at 1. unfold reading at 1. cbv beta iota.
    apply (λ A (c : M A) (H : preserves (λ w', wors w' !! obj = wors w !! obj) c),
             H w eq_refl).
    apply preserves_bind.
    - destruct (objects_get _) as [content| |] eqn:Eget;
        [|apply preserves_ret|apply preserves_raise].
      apply preserves_update. intros w1 Hw1. simpl.
      apply objects_get_found in Eget.
      apply list_elem_of_fmap in Eget as ([k wf] & -> & Hin).
      apply elem_of_map_to_list in Hin.
      apply map_lookup_filter_Some in Hin as [_ Hk]. simpl in *.
      rewrite lookup_delete_ne by (intros ->; congruence). done.
    - intros _. unfold_engine. preserve_by ltac:(simpl; done). }
  split; [done|]. unfold get_workflow_for_object. run. by rewrite Hsame.
Qed.

Lemma remove_workflow_misses_own_binding_witness :
  let w := Demo.bound Demo.memo Demo.review Demo.published in
  content_type Demo.memo ≠ content_id Demo.memo
  ∧ wors (world_of (remove_workflow Demo.cfg Demo.plain (OfObject Demo.memo) w)) !! Demo.memo
    = Some Demo.review.
Proof.
  cbv zeta.
  assert (content_type Demo.memo ≠ content_id Demo.memo) as Hid by (vm_compute; lia).
  split; [exact Hid|].
  apply (remove_workflow_misses_own_binding Demo.cfg Demo.plain Demo.memo
           (Demo.bound Demo.memo Demo.review Demo.published) Hid).
Defined.

(** X20. A workflow given by a name that does not exist is not an error:
    [set_workflow_for_object] and [set_workflow_for_model] return False,
    [get_objects_for_workflow] returns the empty list, and nothing is
    written.  Given an existing name they leave the world that
    [set_to_object], [set_to_model] and [get_objects] leave for the workflow
    it names. *)
Theorem workflow_by_name_lookup (cfg : Config) (host : Host) (name : string)
    (obj : Entity) (ctype : nat) (w : World) :
  match workflow_by_name cfg name with
  | None =>
      set_workflow_for_object cfg host obj (WorkflowName name) w = Ok ReturnedFalse w
      ∧ set_workflow_for_model cfg ctype (WorkflowName name) w = Ok ReturnedFalse w
      ∧ get_objects_for_workflow cfg host (WorkflowName name) w = Ok [] w
  | Some wf =>
      world_of (set_workflow_for_object cfg host obj (WorkflowName name) w)
      = world_of (Workflow_set_to_object cfg host wf obj w)
      ∧ set_workflow_for_model cfg ctype (WorkflowName name) w
        = Ok ReturnedNone (with_wmrs (<[ctype := wf]>) w)
      ∧ get_objects_for_workflow cfg host (WorkflowName name) w
        = Workflow_get_objects host wf w
  end.
Proof.
  unfold set_workflow_for_object, set_workflow_for_model, get_objects_for_workflow,
    workflow_of_arg.
  destruct (workflow_by_name cfg name) as [wf|]; [|done].
  split; [|done]. unfold bind.
  by destruct (Workflow_set_to_object cfg host wf obj w).
Qed.

Lemma bind_assoc_at {A B C} (c : M A) (k : A → M B) (k' : B → M C) (w : World) :
  bind (bind c k) k' w = bind c (λ a, bind (k a) k') w.
Proof. unfold bind. by destruct (c w). Qed.

Lemma bind_ext_at {A B} (c : M A) (k k' : A → M B) (w : World) :
  (∀ a w1, k a w1 = k' a w1) → bind c k w = bind c k' w.
Proof. intros Hk. unfold bind. by destruct (c w). Qed.

Lemma update_permissions_twice cfg obj w :
  bind (update_permissions cfg obj) (λ _, update_permissions cfg obj) w
  = update_permissions cfg obj w.
Proof.
  unfold bind. rewrite update_permissions_run.
  destruct (get_state obj w) as [st w0|e w0] eqn:Hget; [|done].
  pose proof (get_state_rows _ _ _ _ Hget) as [-> _].
  cbv beta iota. rewrite update_permissions_run.
  rewrite (get_state_same_rows obj w (with_grants _ w) st eq_refl Hget).
  unfold with_grants, workflow_of. simpl. do 2 f_equal. apply recomputed_idem.
Qed.

(** X21. [set_state] already ends with the permission recomputation, so
    calling [update_permissions] for the same object right after it changes
    nothing: the two calls in a row end exactly as [set_state] alone does,
    for every form of the state argument and also when [set_state]
    raises. *)
Theorem update_permissions_after_set_state (cfg : Config) (host : Host)
    (obj : Entity) (state : StateArg) (w : World) :
  (set_state cfg host obj state ;;; update_permissions cfg obj) w
  = set_state cfg host obj state w.
Proof.
  unfold set_state.
  rewrite bind_assoc_at. apply bind_ext_at. intros state' w1.
  rewrite bind_assoc_at. apply bind_ext_at. intros rows w2.
  rewrite bind_assoc_at. apply bind_ext_at. intros [] w3.
  apply update_permissions_twice.
Qed.

(** ** The graph command *)

Lemma elem_of_collect_edges cfg (states : list nat) (state : nat) (t : Transition) :
  (state, t) ∈ collect_edges cfg states
  ↔ state ∈ states ∧ t ∈ transitions_all cfg state.
Proof.
  unfold collect_edges. rewrite list_elem_of_bind. split.
  - intros (s & Hin & Hs). apply list_elem_of_fmap in Hin as (t' & [= -> ->] & Ht). done.
  - intros [Hs Ht]. exists state. split; [|done]. apply list_elem_of_fmap. by exists t.
Qed.

Lemma add_edges_spec names (pairs : list (nat * Transition)) (added : list Edge) :
  match add_edges names pairs added with
  | inl e => e = AttributeError
             ∧ ∃ state t, (state, t) ∈ pairs ∧ t_destination t = None
  | inr l => (∀ state t, (state, t) ∈ pairs → is_Some (t_destination t))
             ∧ length l = length added + length pairs
  end.
Proof.
  revert added. induction pairs as [|[state t] pairs IH]; intros added; simpl.
  - split; [|lia]. intros ? ? Hin. by apply elem_of_nil in Hin.
  - destruct (t_destination t) as [destination|] eqn:Hd.
    + specialize (IH (added ++ [{| edge_source := state_codename names state;
                                   edge_destination := state_codename names destination;
                                   edge_label := transition_name names t |}])).
      destruct (add_edges names pairs _) as [e|l].
      * destruct IH as [-> (s' & t' & Hin & Hnone)]. split; [done|].
        exists s', t'. split; [by right|done].
      * destruct IH as [Hall Hlen]. split.
        -- intros s' t' [[= -> ->]|Hin]%elem_of_cons; [by rewrite Hd|by eapply Hall].
        -- rewrite Hlen, length_app. simpl. lia.
    + split; [done|]. exists state, t. split; [by left|done].
Qed.

(** X22. The graph command cannot draw a workflow that has a transition
    without destination.  For an existing workflow codename,
    [render_workfow] raises AttributeError exactly when some state of the
    workflow lists a transition whose destination is None, and it raises
    before any file is written; otherwise it returns a rendering with one
    node per state, one edge per listed transition, and the drawing as its
    last written file. *)
Theorem graph_needs_destinations (cfg : Config) (names : Names) (name : string)
    (options : Options) (workflow : nat) :
  workflow_by_codename names name = Some workflow →
  let stays := ∃ state t, state ∈ states_all cfg workflow
                          ∧ t ∈ transitions_all cfg state
                          ∧ t_destination t = None in
  match render_workfow cfg names name options with
  | inl e => e = AttributeError ∧ stays
  | inr r =>
      ¬ stays
      ∧ length (nodes r) = length (states_all cfg workflow)
      ∧ length (edges r) = length (collect_edges cfg (states_all cfg workflow))
      ∧ last (files r)
        = Some (Drawing (String.append (String.append "workflow_" name)
                           (String.append "." (opt_format options)))
                  (opt_layout options))
  end.
Proof.
  intros Hwf. cbv zeta. unfold render_workfow. rewrite Hwf.
  pose proof (add_edges_spec names (collect_edges cfg (states_all cfg workflow)) [])
    as Hspec.
  destruct (add_edges names _ []) as [e|l].
  - destruct Hspec as [-> (state & t & Hin & Hnone)]. split; [done|].
    apply elem_of_collect_edges in Hin as [Hs Ht]. by exists state, t.
  - destruct Hspec as [Hall Hlen]. simpl. split; [|split; [|split]].
    + intros (state & t & Hs & Ht & Hnone).
      destruct (Hall state t) as [d Hd]; [by apply elem_of_collect_edges|]. congruence.
    + by rewrite length_fmap.
    + by rewrite Hlen.
    + by rewrite last_snoc.
Qed.

Lemma graph_needs_destinations_witness :
  workflow_by_codename DemoGraph.names "review" = Some Demo.review
  ∧ render_workfow Demo.cfg DemoGraph.names "review" DemoGraph.pdf = inl AttributeError
  ∧ match render_workfow DemoGraph.publish_only DemoGraph.names "review" DemoGraph.pdf with
    | inl _ => False
    | inr r => length (nodes r) = 2 ∧ length (edges r) = 1
               ∧ files r = [Drawing "workflow_review.pdf" "dot"]
    end.
Proof.
  split; [reflexivity|]. split; [|by vm_compute].
  pose proof (graph_needs_destinations Demo.cfg DemoGraph.names "review" DemoGraph.pdf
                Demo.review eq_refl) as H.
  cbv zeta in H.
  destruct (render_workfow Demo.cfg DemoGraph.names "review" DemoGraph.pdf) as [e|r] eqn:E.
  - destruct H as [-> _]. reflexivity.
  - vm_compute in E. discriminate E.
Defined.

Lemma render_all_app cfg names (good rest : list string) options
    (done rs : list Rendering) :
  Forall2 (λ n r, render_workfow cfg names n options = inr r) good rs →
  render_all cfg names (good ++ rest) options done
  = render_all cfg names rest options (done ++ rs).
Proof.
  intros Hgood. revert done.
  induction Hgood as [|n r good rs Hn _ IH]; intros done; simpl.
  - by rewrite app_nil_r.
  - rewrite Hn, IH. by rewrite <- (assoc_L (++)).
Qed.

(** X23. [handle] refuses an empty argument list with CommandError before
    rendering anything.  Given workflow names, it renders them in order and
    stops at the first one whose rendering raises, passing that exception
    on: the renderings of the names before it have been made and their
    files written, those of the names after it have not. *)
Theorem handle_stops_at_first_failure (cfg : Config) (names : Names)
    (options : Options) (good rest : list string) (bad : string)
    (rs : list Rendering) (e : Exn) :
  Forall2 (λ n r, render_workfow cfg names n options = inr r) good rs →
  render_workfow cfg names bad options = inl e →
  handle cfg names [] options = ([], Some CommandError)
  ∧ handle cfg names (good ++ bad :: rest) options = (rs, Some (Propagated e))
  ∧ handle cfg names (good ++ [bad]) options
    = handle cfg names (good ++ bad :: rest) options.
Proof.
  intros Hgood Hbad.
  assert (∀ rest', handle cfg names (good ++ bad :: rest') options
                   = (rs, Some (Propagated e))) as Hrun.
  { intros rest'. unfold handle. rewrite decide_False
      by (rewrite length_app; simpl; lia).
    rewrite (render_all_app cfg names good _ options [] rs Hgood). simpl.
    by rewrite Hbad. }
  split; [done|]. split; [apply Hrun|]. by rewrite !Hrun.
Qed.

Lemma handle_stops_at_first_failure_witness :
  let tidy := DemoGraph.publish_only in
  ∃ r, render_workfow tidy DemoGraph.names "review" DemoGraph.pdf = inr r
       ∧ render_workfow tidy DemoGraph.names "archive" DemoGraph.pdf = inl DoesNotExist
       ∧ handle tidy DemoGraph.names ["review"; "archive"; "tickets"] DemoGraph.pdf
         = ([r], Some (Propagated DoesNotExist)).
Proof.
  cbv zeta.
  destruct (render_workfow DemoGraph.publish_only DemoGraph.names "review" DemoGraph.pdf)
    as [e|r] eqn:E; [vm_compute in E; discriminate E|].
  exists r. split; [reflexivity|]. split; [reflexivity|].
  apply (handle_stops_at_first_failure DemoGraph.publish_only DemoGraph.names
           DemoGraph.pdf ["review"] ["tickets"] "archive" [r] DoesNotExist).
  - constructor; [exact E|constructor].
  - reflexivity.
Defined.
